(** * Social Creator Platform API: request validation, store access and handlers

    A shallow embedding of [main.py] (the HTTP handlers) and [schemas.py]
    (the pydantic models), with the properties the specification states
    about them.

    Conventions of the embedding.
    - A decoded JSON payload, and a stored document, is a [value]; a Python
      dict is an association list in insertion order.
    - Python [str] is [string]; every character is one [ascii] (the model
      covers ASCII text, which is what case folding and slicing need).
    - JSON numbers are integers ([Z]): a number with a zero fraction is that
      integer.  A number with a fraction is rejected by every field of every
      schema of the program, and is outside the model.
    - A pydantic model is a record, its validator a function from the payload
      to [validation] of that record.  The validator reports the first
      offending field in declaration order (pydantic collects all of them).
      schemas.py sets no strict mode, so the fields convert as pydantic's lax
      mode does: an [int] takes a boolean or a numeric string, a [bool] takes
      0, 1 and the words for true and false; a [str] takes strings only.
    - Three libraries that the program only names are parameters of the
      model: the URL parser behind [HttpUrl] ([UrlParser]), the grammar of
      numeric strings behind [int] ([IntParser]) and the regular-expression
      engine of the store behind [$regex] ([RegexEngine]).
    - database.py is not among the sources: [create_document] and
      [get_documents] follow the description of the store accessor in the
      specification.

    The file has the model first (values, validation, the models of
    schemas.py, filters, the store, the handlers of main.py), then the
    notions the specification uses and the example data, then the lemmas and
    the theorems, one group per property. *)

From Stdlib Require Import ZArith Lia Ascii String List Bool.
From stdpp Require Import base option list strings gmap pretty.

Open Scope string_scope.
Open Scope list_scope.
Open Scope nat_scope.
Open Scope stdpp_scope.
Set Warnings "-register-all".

(* ===================================================================== *)
(** ** Python values                                                      *)
(* ===================================================================== *)

Inductive value : Type :=
| JNull
| JBool (b : bool)
| JInt (n : Z)
| JStr (s : string)
| JList (xs : list value)
| JObj (fields : list (string * value)).

(** A Python dict with string keys, in insertion order. *)
Abbreviation dict := (list (string * value)).

(** [d.get(k)] *)
Fixpoint dict_get (k : string) (d : dict) : option value :=
  match d with
  | [] => None
  | (k', v) :: d' => if String.eqb k k' then Some v else dict_get k d'
  end.

(** [d[k] = v] on a dict: an existing key keeps its place, a new key goes
    to the end. *)
Fixpoint dict_set {A : Type} (k : string) (v : A) (d : list (string * A))
  : list (string * A) :=
  match d with
  | [] => [(k, v)]
  | (k', v') :: d' =>
      if String.eqb k k' then (k, v) :: d' else (k', v') :: dict_set k v d'
  end.

(** Case folding of the letters A to Z. *)
Definition lower (c : ascii) : ascii :=
  let n := nat_of_ascii c in
  if ((65 <=? n) && (n <=? 90))%nat then ascii_of_nat (n + 32) else c.

(** [s.lower()] *)
Fixpoint str_lower (s : string) : string :=
  match s with
  | EmptyString => ""
  | String c s' => String (lower c) (str_lower s')
  end.

(** [s[:n]] on a string. *)
Fixpoint str_take (n : nat) (s : string) : string :=
  match n, s with
  | O, _ => ""
  | S n', String c s' => String c (str_take n' s')
  | S _, EmptyString => ""
  end.

(* ===================================================================== *)
(** ** Validation (pydantic)                                              *)
(* ===================================================================== *)

(** The constraint a field failed, after pydantic's error types. *)
Inductive constraint : Type :=
| Missing            (* a required field is absent *)
| StringType
| IntType
| BoolType
| ListType
| DictType
| ModelType          (* the payload, or a nested model, is not an object *)
| LiteralError (allowed : list string)
| GreaterThanEqual (bound : Z)
| UrlParsing.

Record validation_error : Type := ValidationError {
  loc : list string;          (* path of the offending field *)
  violated : constraint
}.

Inductive validation (A : Type) : Type :=
| Valid (a : A)
| Invalid (e : validation_error).
Arguments Valid {A} a.
Arguments Invalid {A} e.

#[global] Instance validation_ret : MRet validation := λ A a, Valid a.

#[global] Instance validation_bind : MBind validation := λ A B f m,
  match m with
  | Valid a => f a
  | Invalid e => Invalid e
  end.

#[global] Instance validation_fmap : FMap validation := λ A B f m,
  match m with
  | Valid a => Valid (f a)
  | Invalid e => Invalid e
  end.

(** Prefix the path of an error raised inside field [k]. *)
Definition at_field {A : Type} (k : string) (m : validation A) : validation A :=
  match m with
  | Valid a => Valid a
  | Invalid e => Invalid (ValidationError (k :: loc e) (violated e))
  end.

Definition fail {A : Type} (c : constraint) : validation A :=
  Invalid (ValidationError [] c).

(** A field type: how a value is checked and converted. *)
Definition ftype (A : Type) : Type := value → validation A.

Definition t_str : ftype string := λ v,
  match v with JStr s => Valid s | _ => fail StringType end.

(** How pydantic reads a string as an [int] in lax mode.  The grammar of
    the strings it takes (signs, blanks, digit separators) is the
    library's; the program only names the type, so it is a parameter of the
    model. *)
Class IntParser : Type := str_as_int : string → option Z.

(** The integer that an [int] field takes a value for, in lax mode: an
    integer is itself, a boolean is 0 or 1, a string is parsed; nothing
    else converts. *)
Definition int_value {I : IntParser} (v : value) : option Z :=
  match v with
  | JInt n => Some n
  | JBool b => Some (if b then 1 else 0)%Z
  | JStr s => str_as_int s
  | _ => None
  end.

Definition t_int {I : IntParser} : ftype Z := λ v,
  match int_value v with Some n => Valid n | None => fail IntType end.

(** [int] with [Field(ge=lo)]: the bound is checked on the converted
    integer. *)
Definition t_int_ge {I : IntParser} (lo : Z) : ftype Z := λ v,
  n ← t_int v ;
  if (lo <=? n)%Z then Valid n else fail (GreaterThanEqual lo).

(** The words that a [bool] field takes, in any case of letters. *)
Definition true_words : list string := ["1"; "on"; "t"; "true"; "y"; "yes"].
Definition false_words : list string := ["0"; "off"; "f"; "false"; "n"; "no"].

(** The boolean that a [bool] field takes a value for, in lax mode: a
    boolean is itself, the integers 0 and 1 and the words above convert;
    nothing else does. *)
Definition bool_value (v : value) : option bool :=
  match v with
  | JBool b => Some b
  | JInt 0 => Some false
  | JInt 1 => Some true
  | JStr s =>
      if existsb (String.eqb (str_lower s)) true_words then Some true
      else if existsb (String.eqb (str_lower s)) false_words then Some false
      else None
  | _ => None
  end.

Definition t_bool : ftype bool := λ v,
  match bool_value v with Some b => Valid b | None => fail BoolType end.

(** [Literal[...]]: a string among the allowed ones. *)
Definition t_literal (allowed : list string) : ftype string := λ v,
  match v with
  | JStr s => if existsb (String.eqb s) allowed then Valid s
              else fail (LiteralError allowed)
  | _ => fail (LiteralError allowed)
  end.

(** [Optional[T]]: [null] is accepted and gives [None]. *)
Definition t_optional {A : Type} (t : ftype A) : ftype (option A) := λ v,
  match v with
  | JNull => Valid None
  | _ => Some <$> t v
  end.

Fixpoint validate_items {A : Type} (t : ftype A) (i : nat) (xs : list value)
  : validation (list A) :=
  match xs with
  | [] => Valid []
  | x :: xs' =>
      a ← at_field (pretty i) (t x) ;
      rest ← validate_items t (S i) xs' ;
      Valid (a :: rest)
  end.

(** [List[T]] *)
Definition t_list {A : Type} (t : ftype A) : ftype (list A) := λ v,
  match v with
  | JList xs => validate_items t 0 xs
  | _ => fail ListType
  end.

Fixpoint validate_entries (kvs : dict) : validation (list (string * string)) :=
  match kvs with
  | [] => Valid []
  | (k, v) :: kvs' =>
      s ← at_field k (t_str v) ;
      rest ← validate_entries kvs' ;
      Valid ((k, s) :: rest)
  end.

(** [Dict[str, str]] *)
Definition t_str_dict : ftype (list (string * string)) := λ v,
  match v with
  | JObj kvs => validate_entries kvs
  | _ => fail DictType
  end.

(** The payload of a model must be a JSON object. *)
Definition as_object (v : value) : validation dict :=
  match v with JObj d => Valid d | _ => fail ModelType end.

(** A field declared without default ([x: T] or [Field(...)]). *)
Definition required {A : Type} (d : dict) (k : string) (t : ftype A)
  : validation A :=
  match dict_get k d with
  | None => Invalid (ValidationError [k] Missing)
  | Some v => at_field k (t v)
  end.

(** A field declared with a default ([x: T = dflt]). *)
Definition defaulted {A : Type} (d : dict) (k : string) (t : ftype A) (dflt : A)
  : validation A :=
  match dict_get k d with
  | None => Valid dflt
  | Some v => at_field k (t v)
  end.

(** [HttpUrl].  pydantic's URL parser is a library of its own; the program
    only names the type, so the parser is a parameter of the model: which
    strings it accepts is left open.  The record keeps the accepted string
    as it was sent; the normal form that the parser gives it is not
    modelled. *)
Class UrlParser : Type := http_url_ok : string → bool.

Definition t_http_url {U : UrlParser} : ftype string := λ v,
  match v with
  | JStr s => if http_url_ok s then Valid s else fail UrlParsing
  | _ => fail UrlParsing
  end.

(** [model_dump] of the field types. *)
Definition dump_opt {A : Type} (f : A → value) (o : option A) : value :=
  match o with Some a => f a | None => JNull end.
Definition dump_strs (l : list string) : value := JList (JStr <$> l).
Definition dump_str_dict (l : list (string * string)) : value :=
  JObj ((λ kv, (kv.1, JStr kv.2)) <$> l).

(* ===================================================================== *)
(** ** The models of schemas.py                                           *)
(* ===================================================================== *)

Definition privacy_levels : list string :=
  ["public"; "followers"; "subscribers"; "private"].

Module ProfileSettings.
Record t : Type := Build {
  bio : option string;
  avatar_url : option string;
  banner_url : option string;
  theme : option string;
  links : option (list string);
  privacy_level : string
}.

Definition validate {U : UrlParser} : ftype t := λ v,
  d ← as_object v;
  bio ← defaulted d "bio" (t_optional t_str) None;
  avatar_url ← defaulted d "avatar_url" (t_optional t_http_url) None;
  banner_url ← defaulted d "banner_url" (t_optional t_http_url) None;
  theme ← defaulted d "theme" (t_optional t_str) (Some "light");
  links ← defaulted d "links" (t_optional (t_list t_http_url)) None;
  privacy_level ← defaulted d "privacy_level" (t_literal privacy_levels)
                    "public";
  Valid (Build bio avatar_url banner_url theme links privacy_level).

Definition dump (x : t) : value :=
  JObj [("bio", dump_opt JStr (bio x));
        ("avatar_url", dump_opt JStr (avatar_url x));
        ("banner_url", dump_opt JStr (banner_url x));
        ("theme", dump_opt JStr (theme x));
        ("links", dump_opt dump_strs (links x));
        ("privacy_level", JStr (privacy_level x))].
End ProfileSettings.

Module User.
Record t : Type := Build {
  username : string;
  email : string;
  name : option string;
  settings : option ProfileSettings.t;
  is_creator : bool;
  verified : bool
}.

Definition validate {U : UrlParser} : ftype t := λ v,
  d ← as_object v;
  username ← required d "username" t_str;
  email ← required d "email" t_str;
  name ← defaulted d "name" (t_optional t_str) None;
  settings ← defaulted d "settings" (t_optional ProfileSettings.validate)
               None;
  is_creator ← defaulted d "is_creator" t_bool true;
  verified ← defaulted d "verified" t_bool false;
  Valid (Build username email name settings is_creator verified).

Definition dump (x : t) : dict :=
  [("username", JStr (username x));
   ("email", JStr (email x));
   ("name", dump_opt JStr (name x));
   ("settings", dump_opt ProfileSettings.dump (settings x));
   ("is_creator", JBool (is_creator x));
   ("verified", JBool (verified x))].
End User.

Module SubscriptionPlan.
Record t : Type := Build {
  creator_id : string;
  title : string;
  price_cents : Z;
  currency : string;
  benefits : list string;
  tier : string
}.

Definition validate {I : IntParser} : ftype t := λ v,
  d ← as_object v;
  creator_id ← required d "creator_id" t_str;
  title ← required d "title" t_str;
  price_cents ← required d "price_cents" (t_int_ge 0);
  currency ← defaulted d "currency" t_str "USD";
  benefits ← defaulted d "benefits" (t_list t_str) [];
  tier ← defaulted d "tier"
           (t_literal ["bronze"; "silver"; "gold"; "platinum"]) "bronze";
  Valid (Build creator_id title price_cents currency benefits tier).

Definition dump (x : t) : dict :=
  [("creator_id", JStr (creator_id x));
   ("title", JStr (title x));
   ("price_cents", JInt (price_cents x));
   ("currency", JStr (currency x));
   ("benefits", dump_strs (benefits x));
   ("tier", JStr (tier x))].
End SubscriptionPlan.

Module Subscription.
Record t : Type := Build {
  creator_id : string;
  subscriber_id : string;
  plan_id : string;
  status : string;
  renews_at : option string
}.

Definition validate : ftype t := λ v,
  d ← as_object v;
  creator_id ← required d "creator_id" t_str;
  subscriber_id ← required d "subscriber_id" t_str;
  plan_id ← required d "plan_id" t_str;
  status ← defaulted d "status"
             (t_literal ["active"; "canceled"; "past_due"]) "active";
  renews_at ← defaulted d "renews_at" (t_optional t_str) None;
  Valid (Build creator_id subscriber_id plan_id status renews_at).

Definition dump (x : t) : dict :=
  [("creator_id", JStr (creator_id x));
   ("subscriber_id", JStr (subscriber_id x));
   ("plan_id", JStr (plan_id x));
   ("status", JStr (status x));
   ("renews_at", dump_opt JStr (renews_at x))].
End Subscription.

Module Payment.
Record t : Type := Build {
  user_id : string;
  amount_cents : Z;
  currency : string;
  purpose : string;
  provider : string;
  status : string;
  metadata : option (list (string * string))
}.

Definition validate {I : IntParser} : ftype t := λ v,
  d ← as_object v;
  user_id ← required d "user_id" t_str;
  amount_cents ← required d "amount_cents" t_int;
  currency ← defaulted d "currency" t_str "USD";
  purpose ← defaulted d "purpose"
              (t_literal ["subscription"; "tip"; "purchase"]) "subscription";
  provider ← defaulted d "provider"
               (t_literal ["stripe"; "paypal"; "mock"]) "mock";
  status ← defaulted d "status"
             (t_literal ["initiated"; "succeeded"; "failed"]) "initiated";
  metadata ← defaulted d "metadata" (t_optional t_str_dict) None;
  Valid (Build user_id amount_cents currency purpose provider status metadata).

Definition dump (x : t) : dict :=
  [("user_id", JStr (user_id x));
   ("amount_cents", JInt (amount_cents x));
   ("currency", JStr (currency x));
   ("purpose", JStr (purpose x));
   ("provider", JStr (provider x));
   ("status", JStr (status x));
   ("metadata", dump_opt dump_str_dict (metadata x))].
End Payment.

Module DRMPolicy.
Record t : Type := Build {
  watermark : bool;
  expire_seconds : option Z;
  allow_download : bool
}.

Definition validate {I : IntParser} : ftype t := λ v,
  d ← as_object v;
  watermark ← defaulted d "watermark" t_bool true;
  expire_seconds ← defaulted d "expire_seconds" (t_optional t_int)
                     (Some 3600%Z);
  allow_download ← defaulted d "allow_download" t_bool false;
  Valid (Build watermark expire_seconds allow_download).

Definition dump (x : t) : value :=
  JObj [("watermark", JBool (watermark x));
        ("expire_seconds", dump_opt JInt (expire_seconds x));
        ("allow_download", JBool (allow_download x))].
End DRMPolicy.

Definition content_types : list string :=
  ["text"; "image"; "short_video"; "live_stream"; "audio"].

Module Post.
Record t : Type := Build {
  author_id : string;
  content_type : string;
  text : option string;
  media_url : option string;
  thumbnail_url : option string;
  tags : list string;
  is_premium : bool;
  required_tier : option string;
  drm : option DRMPolicy.t;
  visibility : string
}.

Definition validate {U : UrlParser} {I : IntParser} : ftype t := λ v,
  d ← as_object v;
  author_id ← required d "author_id" t_str;
  content_type ← required d "content_type" (t_literal content_types);
  text ← defaulted d "text" (t_optional t_str) None;
  media_url ← defaulted d "media_url" (t_optional t_http_url) None;
  thumbnail_url ← defaulted d "thumbnail_url" (t_optional t_http_url) None;
  tags ← defaulted d "tags" (t_list t_str) [];
  is_premium ← defaulted d "is_premium" t_bool false;
  required_tier ← defaulted d "required_tier" (t_optional t_str) None;
  drm ← defaulted d "drm" (t_optional DRMPolicy.validate) None;
  visibility ← defaulted d "visibility" (t_literal privacy_levels) "public";
  Valid (Build author_id content_type text media_url thumbnail_url tags
               is_premium required_tier drm visibility).

Definition dump (x : t) : dict :=
  [("author_id", JStr (author_id x));
   ("content_type", JStr (content_type x));
   ("text", dump_opt JStr (text x));
   ("media_url", dump_opt JStr (media_url x));
   ("thumbnail_url", dump_opt JStr (thumbnail_url x));
   ("tags", dump_strs (tags x));
   ("is_premium", JBool (is_premium x));
   ("required_tier", dump_opt JStr (required_tier x));
   ("drm", dump_opt DRMPolicy.dump (drm x));
   ("visibility", JStr (visibility x))].
End Post.

Module Comment.
Record t : Type := Build {
  post_id : string;
  author_id : string;
  text : string
}.

Definition validate : ftype t := λ v,
  d ← as_object v;
  post_id ← required d "post_id" t_str;
  author_id ← required d "author_id" t_str;
  text ← required d "text" t_str;
  Valid (Build post_id author_id text).

Definition dump (x : t) : dict :=
  [("post_id", JStr (post_id x));
   ("author_id", JStr (author_id x));
   ("text", JStr (text x))].
End Comment.

Module Like.
Record t : Type := Build {
  post_id : string;
  user_id : string
}.

Definition validate : ftype t := λ v,
  d ← as_object v;
  post_id ← required d "post_id" t_str;
  user_id ← required d "user_id" t_str;
  Valid (Build post_id user_id).

Definition dump (x : t) : dict :=
  [("post_id", JStr (post_id x)); ("user_id", JStr (user_id x))].
End Like.

Module Message.
Record t : Type := Build {
  sender_id : string;
  recipient_id : string;
  body : string;
  thread_id : option string
}.

Definition validate : ftype t := λ v,
  d ← as_object v;
  sender_id ← required d "sender_id" t_str;
  recipient_id ← required d "recipient_id" t_str;
  body ← required d "body" t_str;
  thread_id ← defaulted d "thread_id" (t_optional t_str) None;
  Valid (Build sender_id recipient_id body thread_id).

Definition dump (x : t) : dict :=
  [("sender_id", JStr (sender_id x));
   ("recipient_id", JStr (recipient_id x));
   ("body", JStr (body x));
   ("thread_id", dump_opt JStr (thread_id x))].
End Message.

Module Group.
Record t : Type := Build {
  owner_id : string;
  name : string;
  description : option string;
  members : list string
}.

Definition validate : ftype t := λ v,
  d ← as_object v;
  owner_id ← required d "owner_id" t_str;
  name ← required d "name" t_str;
  description ← defaulted d "description" (t_optional t_str) None;
  members ← defaulted d "members" (t_list t_str) [];
  Valid (Build owner_id name description members).

Definition dump (x : t) : dict :=
  [("owner_id", JStr (owner_id x));
   ("name", JStr (name x));
   ("description", dump_opt JStr (description x));
   ("members", dump_strs (members x))].
End Group.

Module Notification.
Record t : Type := Build {
  user_id : string;
  type : string;
  title : string;
  body : option string;
  read : bool
}.

Definition validate : ftype t := λ v,
  d ← as_object v;
  user_id ← required d "user_id" t_str;
  type ← required d "type"
           (t_literal ["like"; "comment"; "message"; "subscription"; "system"]);
  title ← required d "title" t_str;
  body ← defaulted d "body" (t_optional t_str) None;
  read ← defaulted d "read" t_bool false;
  Valid (Build user_id type title body read).

Definition dump (x : t) : dict :=
  [("user_id", JStr (user_id x));
   ("type", JStr (type x));
   ("title", JStr (title x));
   ("body", dump_opt JStr (body x));
   ("read", JBool (read x))].
End Notification.

Definition live_statuses : list string := ["scheduled"; "live"; "ended"].

Module Stream.
Record t : Type := Build {
  creator_id : string;
  title : string;
  status : string;
  start_time : option string;
  end_time : option string;
  access : string
}.

Definition validate : ftype t := λ v,
  d ← as_object v;
  creator_id ← required d "creator_id" t_str;
  title ← required d "title" t_str;
  status ← defaulted d "status" (t_literal live_statuses) "scheduled";
  start_time ← defaulted d "start_time" (t_optional t_str) None;
  end_time ← defaulted d "end_time" (t_optional t_str) None;
  access ← defaulted d "access"
             (t_literal ["public"; "subscribers"; "pay_per_view"]) "public";
  Valid (Build creator_id title status start_time end_time access).

Definition dump (x : t) : dict :=
  [("creator_id", JStr (creator_id x));
   ("title", JStr (title x));
   ("status", JStr (status x));
   ("start_time", dump_opt JStr (start_time x));
   ("end_time", dump_opt JStr (end_time x));
   ("access", JStr (access x))].
End Stream.

Module AudioRoom.
Record t : Type := Build {
  host_id : string;
  topic : string;
  status : string;
  speakers : list string
}.

Definition validate : ftype t := λ v,
  d ← as_object v;
  host_id ← required d "host_id" t_str;
  topic ← required d "topic" t_str;
  status ← defaulted d "status" (t_literal live_statuses) "scheduled";
  speakers ← defaulted d "speakers" (t_list t_str) [];
  Valid (Build host_id topic status speakers).

Definition dump (x : t) : dict :=
  [("host_id", JStr (host_id x));
   ("topic", JStr (topic x));
   ("status", JStr (status x));
   ("speakers", dump_strs (speakers x))].
End AudioRoom.

Module AnalyticsEvent.
Record t : Type := Build {
  user_id : option string;
  event_name : string;
  properties : list (string * string)
}.

Definition validate : ftype t := λ v,
  d ← as_object v;
  user_id ← defaulted d "user_id" (t_optional t_str) None;
  event_name ← required d "event_name" t_str;
  properties ← defaulted d "properties" t_str_dict [];
  Valid (Build user_id event_name properties).

Definition dump (x : t) : dict :=
  [("user_id", dump_opt JStr (user_id x));
   ("event_name", JStr (event_name x));
   ("properties", dump_str_dict (properties x))].
End AnalyticsEvent.

(** The search index: declared, and used by no handler. *)
Module SearchIndex.
Record t : Type := Build {
  doc_type : string;
  ref_id : string;
  tokens : list string
}.

Definition validate : ftype t := λ v,
  d ← as_object v;
  doc_type ← required d "doc_type" (t_literal ["user"; "post"; "group"]);
  ref_id ← required d "ref_id" t_str;
  tokens ← required d "tokens" (t_list t_str);
  Valid (Build doc_type ref_id tokens).

Definition dump (x : t) : dict :=
  [("doc_type", JStr (doc_type x));
   ("ref_id", JStr (ref_id x));
   ("tokens", dump_strs (tokens x))].
End SearchIndex.

(** [SearchQuery] of main.py. *)
Module SearchQuery.
Record t : Type := Build { q : string }.

Definition validate : ftype t := λ v,
  d ← as_object v;
  q ← required d "q" t_str;
  Valid (Build q).
End SearchQuery.

(* ===================================================================== *)
(** ** Filters (the dicts main.py hands to the store)                     *)
(* ===================================================================== *)

(** What a filter dict asks of one field.  main.py compares fields with
    [str] values only. *)
Inductive cond : Type :=
| Equals (s : string)               (* {"f": s} *)
| AnyOf (ss : list string)          (* {"f": {"$in": ss}} *)
| Regex (pattern options : string). (* {"f": {"$regex": p, "$options": o}} *)

(** A dict of field conditions: a document satisfies it when every
    condition holds. *)
Abbreviation conds := (list (string * cond)).

(** The two shapes of filter main.py builds. *)
Inductive query : Type :=
| Fields (fs : conds)                    (* {"f1": c1, "f2": c2, ...} *)
| Or (alts : list conds).                (* {"$or": [{...}, {...}]} *)

(** *** Regular expressions

    [$regex] hands its pattern and options to the regular-expression
    engine of the store (PCRE), which compiles them to a test on strings or
    refuses the pattern.  The model fixes what the engine does with the
    patterns made of ordinary characters and dots, under no option or the
    option [i]; what it does with any other pattern or option is a
    parameter of the model. *)
Class RegexEngine : Type :=
  pcre_compile : string → string → option (string → bool).

Inductive pitem : Type :=
| Lit (c : ascii)        (* an ordinary character stands for itself *)
| AnyChar.               (* [.]: any character but a newline *)

(** The characters with a special meaning in a pattern. *)
Definition metachars : list ascii :=
  list_ascii_of_string "\^$.|?*+()[]{}".

Definition is_meta (c : ascii) : bool := existsb (Ascii.eqb c) metachars.

Fixpoint parse_items (cs : list ascii) : option (list pitem) :=
  match cs with
  | [] => Some []
  | c :: cs' =>
      if Ascii.eqb c "."%char then cons AnyChar <$> parse_items cs'
      else if is_meta c then None
      else cons (Lit c) <$> parse_items cs'
  end.

(** [None]: the pattern has a metacharacter other than the dot. *)
Definition parse_pattern (p : string) : option (list pitem) :=
  parse_items (list_ascii_of_string p).

Definition item_matches (ci : bool) (it : pitem) (c : ascii) : bool :=
  match it with
  | Lit a => if ci then Ascii.eqb (lower a) (lower c) else Ascii.eqb a c
  | AnyChar => negb (Ascii.eqb c "010"%char)
  end.

(** The pattern matches at the start of the subject. *)
Fixpoint matches_here (ci : bool) (p : list pitem) (s : list ascii) : bool :=
  match p, s with
  | [], _ => true
  | it :: p', c :: s' => item_matches ci it c && matches_here ci p' s'
  | _ :: _, [] => false
  end.

(** The pattern matches somewhere in the subject (an unanchored search). *)
Fixpoint matches_somewhere (ci : bool) (p : list pitem) (s : list ascii)
  : bool :=
  matches_here ci p s ||
  match s with
  | [] => false
  | _ :: s' => matches_somewhere ci p s'
  end.

(** Option [i] asks for a case-insensitive match. *)
Definition case_insensitive (options : string) : bool :=
  existsb (Ascii.eqb "i"%char) (list_ascii_of_string options).

Definition plain_options (options : string) : bool :=
  String.eqb options "" || String.eqb options "i".

Section Matching.
Context {E : RegexEngine}.

Definition regex_compile (pattern options : string)
  : option (string → bool) :=
  match parse_pattern pattern with
  | Some p =>
      if plain_options options
      then Some (λ subject,
                   matches_somewhere (case_insensitive options) p
                     (list_ascii_of_string subject))
      else pcre_compile pattern options
  | None => pcre_compile pattern options
  end.

Definition regex_search (pattern options subject : string) : bool :=
  match regex_compile pattern options with
  | Some test => test subject
  | None => false
  end.

(** *** Matching a document

    A field offers for comparison its value, when that is a string, or
    its elements, when it is an array; an absent field, [null] and the
    other types offer no string. *)
Definition as_string (v : value) : option string :=
  match v with JStr s => Some s | _ => None end.

Definition strings_of (o : option value) : list string :=
  match o with
  | Some (JStr s) => [s]
  | Some (JList xs) => omap as_string xs
  | _ => []
  end.

Definition test_string (c : cond) (s : string) : bool :=
  match c with
  | Equals s' => String.eqb s s'
  | AnyOf ss => existsb (String.eqb s) ss
  | Regex p o => regex_search p o s
  end.

Definition cond_holds (doc : dict) (fc : string * cond) : bool :=
  existsb (test_string fc.2) (strings_of (dict_get fc.1 doc)).

Definition conds_hold (doc : dict) (fs : conds) : bool :=
  forallb (cond_holds doc) fs.

Definition query_matches (q : query) (doc : dict) : bool :=
  match q with
  | Fields fs => conds_hold doc fs
  | Or alts => existsb (conds_hold doc) alts
  end.

(** The engine compiles every pattern of the filter. *)
Definition cond_compiles (fc : string * cond) : bool :=
  match fc.2 with
  | Regex p o => bool_decide (is_Some (regex_compile p o))
  | _ => true
  end.

Definition query_compiles (q : query) : bool :=
  match q with
  | Fields fs => forallb cond_compiles fs
  | Or alts => forallb (forallb cond_compiles) alts
  end.

End Matching.

(* ===================================================================== *)
(** ** The document store                                                 *)
(* ===================================================================== *)

(** The store behind the global [db] of database.py: its name, the error
    its server answers every operation with (when it is reachable but
    failing), its collections in the store's own order, and the number of
    identifiers it has generated. *)
Record Database : Type := {
  db_name : string;
  db_fault : option string;
  db_collections : gmap string (list dict);
  db_generated : nat
}.

(** The global [db]: [None] when no store is configured. *)
Abbreviation store := (option Database).

(** A Python call either returns or raises. *)
Inductive outcome (A : Type) : Type :=
| Return (a : A)
| Raise (e : string).
Arguments Return {A} a.
Arguments Raise {A} e.

Definition collection (name : string) (d : Database) : list dict :=
  default [] (db_collections d !! name).

Definition object_id (n : nat) : string := pretty n.

(** The document as stored: the record's fields and the generated
    identifier. *)
Definition stored (id : string) (data : dict) : dict :=
  (data ++ [("_id", JStr id)])%list.

Definition not_available : string := "Database not available".

(** Modelled from the spec: [create_document] of database.py, which is not
    among the sources.  Insert-one(collection, record): stores the
    serialized record and returns a newly generated identifier; fails with
    a storage error when the store is unreachable.  The new document goes
    to the end of its collection: the order of the store is the order of
    insertion, the typical one according to the specification. *)
Definition create_document (coll : string) (data : dict) (db : store)
  : outcome string * store :=
  match db with
  | None => (Raise not_available, db)
  | Some d =>
      match db_fault d with
      | Some e => (Raise e, db)
      | None =>
          let id := object_id (db_generated d) in
          (Return id,
           Some {| db_name := db_name d;
                   db_fault := None;
                   db_collections :=
                     <[coll := (collection coll d ++ [stored id data])%list]>
                       (db_collections d);
                   db_generated := S (db_generated d) |})
      end
  end.

Definition invalid_pattern : string := "Regular expression is invalid".

(** Modelled from the spec: [get_documents] of database.py, which is not
    among the sources.  Find-many(collection, filter, limit): up to
    [limit] matching documents in the store's order, the empty sequence
    when none matches; fails with a storage error when the store is
    unreachable.  A filter with a pattern that the engine of the store
    refuses is an error of the store as well. *)
Definition get_documents {E : RegexEngine} (coll : string) (q : query)
  (limit : nat) (db : store) : outcome (list dict) :=
  match db with
  | None => Raise not_available
  | Some d =>
      match db_fault d with
      | Some e => Raise e
      | None =>
          if query_compiles q
          then Return (take limit
                         (List.filter (query_matches q) (collection coll d)))
          else Raise invalid_pattern
      end
  end.

(** Modelled from the spec: [db.list_collection_names()], the enumeration
    of collection names that the diagnostics endpoint attempts. *)
Definition list_collection_names (d : Database) : outcome (list string) :=
  match db_fault d with
  | Some e => Raise e
  | None => Return (map_to_list (db_collections d)).*1
  end.

(* ===================================================================== *)
(** ** main.py                                                            *)
(* ===================================================================== *)

(** A handler that may write: it runs on the store, returns or raises, and
    leaves a store behind. *)
Definition action (A : Type) : Type := store → outcome A * store.

#[global] Instance action_ret : MRet action := λ A a db, (Return a, db).

#[global] Instance action_bind : MBind action := λ A B f m db,
  match m db with
  | (Return a, db') => f a db'
  | (Raise e, db') => (Raise e, db')
  end.

Definition insert_one (coll : string) (data : dict) : action string :=
  create_document coll data.

Record IdResponse : Type := { id : string }.

(** *** Health *)

Definition root : dict :=
  [("service", JStr "creator-platform"); ("status", JStr "ok")].

(** The body of [test_database] mutates the dict [response] and may raise
    in the middle: a raise keeps the assignments made before it.  The store
    handle always has a name, so [getattr(db, 'name', ...)] is that name. *)
Definition prog (A : Type) : Type := dict → outcome A * dict.

#[global] Instance prog_ret : MRet prog := λ A a r, (Return a, r).

#[global] Instance prog_bind : MBind prog := λ A B f m r,
  match m r with
  | (Return a, r') => f a r'
  | (Raise e, r') => (Raise e, r')
  end.

(** [response[k] = v] *)
Definition assign (k : string) (v : value) : prog unit :=
  λ r, (Return (), dict_set k v r).

(** A call that may raise. *)
Definition call {A : Type} (o : outcome A) : prog A := λ r, (o, r).

(** [try: body  except Exception as e: handler(e)] *)
Definition try_except (body : prog unit) (handler : string → prog unit)
  : prog unit := λ r,
  match body r with
  | (Return u, r') => (Return u, r')
  | (Raise e, r') => handler e r'
  end.

Definition test_database (db : store) : outcome dict :=
  let response : dict :=
    [("backend", JStr "✅ Running");
     ("database", JStr "❌ Not Available");
     ("database_url", JStr "❌ Not Set");
     ("database_name", JStr "❌ Not Set");
     ("connection_status", JStr "Not Connected");
     ("collections", JList [])] in
  let body : prog unit :=
    try_except
      (match db with
       | Some d =>
           _ ← assign "database" (JStr "✅ Available");
           _ ← assign "database_url" (JStr "✅ Set");
           _ ← assign "database_name" (JStr (db_name d));
           _ ← assign "connection_status" (JStr "Connected");
           try_except
             (collections ← call (list_collection_names d);
              _ ← assign "collections" (dump_strs (take 20 collections));
              assign "database" (JStr "✅ Connected & Working"))
             (λ e, assign "database"
                     (JStr ("⚠️ Connected but Error: " +:+ str_take 80 e)))
       | None => mret ()
       end)
      (λ e, assign "database" (JStr ("❌ Error: " +:+ str_take 80 e))) in
  match body response with
  | (Return _, response') => Return response'
  | (Raise e, _) => Raise e
  end.

(** *** Create handlers: one validated insert each *)

Definition create_user (user : User.t) : action IdResponse :=
  new_id ← insert_one "user" (User.dump user);
  mret {| id := new_id |}.

Definition create_post (post : Post.t) : action IdResponse :=
  new_id ← insert_one "post" (Post.dump post);
  mret {| id := new_id |}.

Definition add_comment (comment : Comment.t) : action IdResponse :=
  new_id ← insert_one "comment" (Comment.dump comment);
  mret {| id := new_id |}.

Definition add_like (like : Like.t) : action IdResponse :=
  new_id ← insert_one "like" (Like.dump like);
  mret {| id := new_id |}.

Definition send_message (msg : Message.t) : action IdResponse :=
  new_id ← insert_one "message" (Message.dump msg);
  mret {| id := new_id |}.

Definition create_plan (plan : SubscriptionPlan.t) : action IdResponse :=
  new_id ← insert_one "subscriptionplan" (SubscriptionPlan.dump plan);
  mret {| id := new_id |}.

Definition create_subscription (sub : Subscription.t) : action IdResponse :=
  new_id ← insert_one "subscription" (Subscription.dump sub);
  mret {| id := new_id |}.

Definition create_payment (payment : Payment.t) : action IdResponse :=
  new_id ← insert_one "payment" (Payment.dump payment);
  mret {| id := new_id |}.

Definition create_notification (n : Notification.t) : action IdResponse :=
  new_id ← insert_one "notification" (Notification.dump n);
  mret {| id := new_id |}.

Definition create_stream (s : Stream.t) : action IdResponse :=
  new_id ← insert_one "stream" (Stream.dump s);
  mret {| id := new_id |}.

Definition create_audio_room (r : AudioRoom.t) : action IdResponse :=
  new_id ← insert_one "audioroom" (AudioRoom.dump r);
  mret {| id := new_id |}.

Definition track (event : AnalyticsEvent.t) : action IdResponse :=
  new_id ← insert_one "analyticsevent" (AnalyticsEvent.dump event);
  mret {| id := new_id |}.

(** *** List handlers: one filtered read each *)

Section Reads.
Context {E : RegexEngine}.

(** Python truthiness of a [str]: only the empty string is falsy. *)
Definition nonempty (s : string) : bool := negb (String.eqb s "").

Definition list_users (db : store) : outcome (list dict) :=
  get_documents "user" (Fields []) 50 db.

Definition list_posts (tag author_id : option string) (db : store)
  : outcome (list dict) :=
  let query : conds := [] in
  let query :=
    match tag with
    | Some t => if nonempty t then dict_set "tags" (AnyOf [t]) query else query
    | None => query
    end in
  let query :=
    match author_id with
    | Some a =>
        if nonempty a then dict_set "author_id" (Equals a) query else query
    | None => query
    end in
  get_documents "post" (Fields query) 100 db.

Definition get_messages (user_id : string) (with_user : option string)
  (db : store) : outcome (list dict) :=
  let q := Or [[("sender_id", Equals user_id)];
               [("recipient_id", Equals user_id)]] in
  let q :=
    match with_user with
    | Some w =>
        if nonempty w
        then Or [[("sender_id", Equals user_id); ("recipient_id", Equals w)];
                 [("sender_id", Equals w); ("recipient_id", Equals user_id)]]
        else q
    | None => q
    end in
  get_documents "message" q 200 db.

Definition list_notifications (user_id : string) (db : store)
  : outcome (list dict) :=
  get_documents "notification" (Fields [("user_id", Equals user_id)]) 100 db.

Definition search (payload : SearchQuery.t) (db : store)
  : outcome (list dict) :=
  let q := SearchQuery.q payload in
  get_documents "post"
    (Or [[("text", Regex q "i")]; [("tags", AnyOf [q])]]) 50 db.

Definition recommendations (user_id : option string) (db : store)
  : outcome (list dict) :=
  get_documents "post"
    (Fields [("visibility", AnyOf ["public"; "followers"])]) 20 db.

End Reads.

(** *** The framework around the handlers

    FastAPI validates the body against the handler's model before it calls
    the handler (422 on failure), answers 200 with what the handler
    returns, and 500 when the handler raises. *)
Inductive response (A : Type) : Type :=
| OK (body : A)
| UnprocessableEntity (e : validation_error)
| InternalServerError (e : string).
Arguments OK {A} body.
Arguments UnprocessableEntity {A} e.
Arguments InternalServerError {A} e.

Definition respond {A : Type} (o : outcome A) : response A :=
  match o with
  | Return a => OK a
  | Raise e => InternalServerError e
  end.

Definition post_endpoint {T A : Type} (validate : ftype T)
  (handler : T → action A) (payload : value) (db : store)
  : response A * store :=
  match validate payload with
  | Invalid e => (UnprocessableEntity e, db)
  | Valid x => let '(o, db') := handler x db in (respond o, db')
  end.

Definition GET_test (db : store) : response dict := respond (test_database db).

Definition POST_users {U : UrlParser} :=
  post_endpoint User.validate create_user.
Definition POST_posts {U : UrlParser} {I : IntParser} :=
  post_endpoint Post.validate create_post.
Definition POST_comments := post_endpoint Comment.validate add_comment.
Definition POST_likes := post_endpoint Like.validate add_like.
Definition POST_messages := post_endpoint Message.validate send_message.
Definition POST_plans {I : IntParser} :=
  post_endpoint SubscriptionPlan.validate create_plan.
Definition POST_subscriptions :=
  post_endpoint Subscription.validate create_subscription.
Definition POST_payments {I : IntParser} :=
  post_endpoint Payment.validate create_payment.
Definition POST_notifications :=
  post_endpoint Notification.validate create_notification.
Definition POST_streams := post_endpoint Stream.validate create_stream.
Definition POST_audio_rooms :=
  post_endpoint AudioRoom.validate create_audio_room.
Definition POST_analytics := post_endpoint AnalyticsEvent.validate track.

Section ReadEndpoints.
Context {E : RegexEngine}.

(** [POST /search] reads only. *)
Definition POST_search (payload : value) (db : store)
  : response (list dict) :=
  match SearchQuery.validate payload with
  | Invalid e => UnprocessableEntity e
  | Valid x => respond (search x db)
  end.

Definition GET_users (db : store) := respond (list_users db).
Definition GET_posts (tag author_id : option string) (db : store) :=
  respond (list_posts tag author_id db).
Definition GET_messages (user_id : string) (with_user : option string)
  (db : store) := respond (get_messages user_id with_user db).
Definition GET_notifications (user_id : string) (db : store) :=
  respond (list_notifications user_id db).
Definition GET_recommendations (user_id : option string) (db : store) :=
  respond (recommendations user_id db).

End ReadEndpoints.

(** *** The create endpoints as one table *)

Inductive create_route : Type :=
| Users | Posts | Comments | Likes | Messages | Plans | Subscriptions
| Payments | Notifications | Streams | AudioRooms | Analytics.

Definition create {U : UrlParser} {I : IntParser} (r : create_route)
  : value → store → response IdResponse * store :=
  match r with
  | Users => POST_users
  | Posts => POST_posts
  | Comments => POST_comments
  | Likes => POST_likes
  | Messages => POST_messages
  | Plans => POST_plans
  | Subscriptions => POST_subscriptions
  | Payments => POST_payments
  | Notifications => POST_notifications
  | Streams => POST_streams
  | AudioRooms => POST_audio_rooms
  | Analytics => POST_analytics
  end.

(* ===================================================================== *)
(** ** What the specification speaks of                                   *)
(* ===================================================================== *)

Definition chars (s : string) : list ascii := list_ascii_of_string s.

(** [q] occurs in [t] as a substring, up to the case of letters. *)
Definition ci_contains (q t : string) : Prop :=
  ∃ pre post : list ascii,
    lower <$> chars t = pre ++ (lower <$> chars q) ++ post.

(** [q] has no character that is special in a regular expression. *)
Definition plain (q : string) : Prop :=
  Forall (λ c, is_meta c = false) (chars q).

Definition passes {T : Type} (validate : ftype T) (payload : value) : bool :=
  match validate payload with Valid _ => true | Invalid _ => false end.

(** The payload satisfies the schema of the route's entity. *)
Definition accepts {U : UrlParser} {I : IntParser} (r : create_route)
  (payload : value) : bool :=
  match r with
  | Users => passes User.validate payload
  | Posts => passes Post.validate payload
  | Comments => passes Comment.validate payload
  | Likes => passes Like.validate payload
  | Messages => passes Message.validate payload
  | Plans => passes SubscriptionPlan.validate payload
  | Subscriptions => passes Subscription.validate payload
  | Payments => passes Payment.validate payload
  | Notifications => passes Notification.validate payload
  | Streams => passes Stream.validate payload
  | AudioRooms => passes AudioRoom.validate payload
  | Analytics => passes AnalyticsEvent.validate payload
  end.

(** The documents the create handlers leave in the collections that the
    filtered reads query: a validated record and its identifier. *)
Definition stored_post (ip : string * Post.t) : dict :=
  stored ip.1 (Post.dump ip.2).

Definition stored_message (im : string * Message.t) : dict :=
  stored im.1 (Message.dump im.2).

(** A store in working order whose post and message collections hold the
    records [ps] and [ms], in this order. *)
Record holds (d : Database) (ps : list (string * Post.t))
    (ms : list (string * Message.t)) : Prop := {
  holds_up : db_fault d = None;
  holds_posts : collection "post" d = stored_post <$> ps;
  holds_messages : collection "message" d = stored_message <$> ms
}.

(** A store in working order that holds nothing yet. *)
Definition empty_store (name : string) : Database :=
  {| db_name := name; db_fault := None;
     db_collections := ∅; db_generated := 0 |}.

(** The stores that a run of create requests leaves behind. *)
Inductive reachable {U : UrlParser} {I : IntParser} : Database → Prop :=
| reachable_empty name : reachable (empty_store name)
| reachable_create r payload d answer d' :
    reachable d →
    create r payload (Some d) = (answer, Some d') →
    reachable d'.

(** The store after one insert. *)
Definition inserted (coll : string) (data : dict) (d : Database) : Database :=
  {| db_name := db_name d;
     db_fault := None;
     db_collections :=
       <[coll := collection coll d
                 ++ [stored (object_id (db_generated d)) data]]>
         (db_collections d);
     db_generated := S (db_generated d) |}.

(** Search: the text contains [q] case-insensitively, or [q] is a tag. *)
Definition search_match (q : string) (p : Post.t) : Prop :=
  (∃ t, Post.text p = Some t ∧ ci_contains q t) ∨ q ∈ Post.tags p.

(** Messages exactly between [a] and [b], in either direction. *)
Definition between (a b : string) (m : Message.t) : Prop :=
  (Message.sender_id m = a ∧ Message.recipient_id m = b) ∨
  (Message.sender_id m = b ∧ Message.recipient_id m = a).

(** Messages that [a] sent or received. *)
Definition involves (a : string) (m : Message.t) : Prop :=
  Message.sender_id m = a ∨ Message.recipient_id m = a.

Definition has_tag (x : string) (p : Post.t) : Prop := x ∈ Post.tags p.

Definition by_author (y : string) (p : Post.t) : Prop := Post.author_id p = y.

Definition recommendable (p : Post.t) : Prop :=
  Post.visibility p = "public" ∨ Post.visibility p = "followers".

(* ===================================================================== *)
(** ** Example data                                                       *)
(* ===================================================================== *)

(** A URL parser for the examples: it looks at the scheme only. *)
Definition scheme_only : UrlParser := λ s,
  String.prefix "http://" s || String.prefix "https://" s.

(** An int parser for the examples: it reads decimal digits, with a minus
    sign before them or without. *)
Fixpoint digits_value (acc : Z) (cs : list ascii) : option Z :=
  match cs with
  | [] => Some acc
  | c :: cs' =>
      match Ascii.is_nat c with
      | Some n => digits_value (10 * acc + Z.of_nat n) cs'
      | None => None
      end
  end.

Definition decimal_only : IntParser := λ s,
  match list_ascii_of_string s with
  | [] => None
  | "-"%char :: [] => None
  | "-"%char :: cs => Z.opp <$> digits_value 0 cs
  | cs => digits_value 0 cs
  end.

(** An engine for the examples: it knows no pattern beyond those the model
    fixes. *)
Definition no_extensions : RegexEngine := λ _ _, None.

Definition fresh : Database := empty_store "creators".

(** The store after the requests [rs], each a function of the store. *)
Definition after (rs : list (store → store)) (db : store) : store :=
  foldl (λ db r, r db) db rs.

Definition abc_post : Post.t :=
  Post.Build "u1" "text" (Some "abc") None None [] false None None "public".

Definition abc_payload : value :=
  JObj [("author_id", JStr "u1"); ("content_type", JStr "text");
        ("text", JStr "abc")].

(** The example of the specification: a post tagged [intro]; and a second
    post by another author, private and without tags. *)
Definition hello_post : Post.t :=
  Post.Build "u1" "text" (Some "hello world") None None ["intro"] false None
    None "public".

Definition hello_payload : value :=
  JObj [("author_id", JStr "u1"); ("content_type", JStr "text");
        ("text", JStr "hello world"); ("tags", JList [JStr "intro"])].

Definition diary_post : Post.t :=
  Post.Build "u2" "image" (Some "Dear Diary") None None [] false None None
    "private".

Definition diary_payload : value :=
  JObj [("author_id", JStr "u2"); ("content_type", JStr "image");
        ("text", JStr "Dear Diary"); ("visibility", JStr "private")].

Definition two_posts : list (string * Post.t) :=
  [("0", hello_post); ("1", diary_post)].

Definition two_posts_db : Database :=
  {| db_name := "creators"; db_fault := None;
     db_collections := {[ "post" := stored_post <$> two_posts ]};
     db_generated := 2 |}.

Definition bogus_payload : value :=
  JObj [("author_id", JStr "u1"); ("content_type", JStr "bogus")].

Definition chat : list (string * Message.t) :=
  [("0", Message.Build "ann" "bob" "hi" None);
   ("1", Message.Build "bob" "ann" "hello" None);
   ("2", Message.Build "ann" "cy" "lunch?" None);
   ("3", Message.Build "cy" "dee" "busy" None)].

Definition chat_db : Database :=
  {| db_name := "creators"; db_fault := None;
     db_collections := {[ "message" := stored_message <$> chat ]};
     db_generated := 4 |}.

Definition message_payload (sender recipient body : string) : value :=
  JObj [("sender_id", JStr sender); ("recipient_id", JStr recipient);
        ("body", JStr body)].

Definition plan_payload (price : Z) : value :=
  JObj [("creator_id", JStr "u1"); ("title", JStr "Backstage");
        ("price_cents", JInt price)].

Definition tip_fields (amount : Z) : dict :=
  [("user_id", JStr "u1"); ("amount_cents", JInt amount);
   ("purpose", JStr "tip")].

Definition tip (amount : Z) : Payment.t :=
  Payment.Build "u1" amount "USD" "tip" "mock" "initiated" None.

Definition fan_payload : value :=
  JObj [("username", JStr "fan"); ("email", JStr "fan@example.org")].

Definition ann_payload : value :=
  JObj [("username", JStr "ann"); ("email", JStr "ann@example.org")].

Definition ann : User.t :=
  User.Build "ann" "ann@example.org" None None true false.

(** The store after fifty users have been created. *)
Definition fifty_users : store :=
  Nat.iter 50 (λ db, (POST_users (U:=scheme_only) fan_payload db).2)
    (Some fresh).

Definition timed_out : Database :=
  {| db_name := "creators"; db_fault := Some "timed out";
     db_collections := ∅; db_generated := 0 |}.

(* ===================================================================== *)
(** ** Further notions: routes, collections and stored records           *)
(* ===================================================================== *)

(** The collection each create handler names in its call of
    [create_document]. *)
Definition route_collection (r : create_route) : string :=
  match r with
  | Users => "user"
  | Posts => "post"
  | Comments => "comment"
  | Likes => "like"
  | Messages => "message"
  | Plans => "subscriptionplan"
  | Subscriptions => "subscription"
  | Payments => "payment"
  | Notifications => "notification"
  | Streams => "stream"
  | AudioRooms => "audioroom"
  | Analytics => "analyticsevent"
  end.

Definition accepted {A : Type} (m : validation A) : option A :=
  match m with Valid a => Some a | Invalid _ => None end.

(** The record a payload validates to on a route, serialized. *)
Definition normalized {U : UrlParser} {I : IntParser} (r : create_route)
  (payload : value) : option dict :=
  match r with
  | Users => User.dump <$> accepted (User.validate payload)
  | Posts => Post.dump <$> accepted (Post.validate payload)
  | Comments => Comment.dump <$> accepted (Comment.validate payload)
  | Likes => Like.dump <$> accepted (Like.validate payload)
  | Messages => Message.dump <$> accepted (Message.validate payload)
  | Plans => SubscriptionPlan.dump <$> accepted (SubscriptionPlan.validate payload)
  | Subscriptions => Subscription.dump <$> accepted (Subscription.validate payload)
  | Payments => Payment.dump <$> accepted (Payment.validate payload)
  | Notifications => Notification.dump <$> accepted (Notification.validate payload)
  | Streams => Stream.dump <$> accepted (Stream.validate payload)
  | AudioRooms => AudioRoom.dump <$> accepted (AudioRoom.validate payload)
  | Analytics => AnalyticsEvent.dump <$> accepted (AnalyticsEvent.validate payload)
  end.

(** The store after a sequence of create requests. *)
Definition run {U : UrlParser} {I : IntParser}
  (requests : list (create_route * value)) (db : store) : store :=
  foldl (λ db rq, (create rq.1 rq.2 db).2) db requests.

(** A field type and the serializer of its values agree: what the type
    accepts, serialized, is accepted again and gives the same value. *)
Class Stable {A : Type} (t : ftype A) (f : A → value) : Prop :=
  stable : ∀ v a, t v = Valid a → t (f a) = Valid a.
#[global] Hint Mode Stable + + - : typeclass_instances.

(** The serializer never gives [null]. *)
Class NonNull {A : Type} (f : A → value) : Prop :=
  non_null : ∀ a, f a ≠ JNull.

Definition stored_notification (n : string * Notification.t) : dict :=
  stored n.1 (Notification.dump n.2).

Definition for_user (u : string) (n : Notification.t) : Prop :=
  Notification.user_id n = u.

(** Search with the empty query: the post has a text, or the empty tag. *)
Definition has_text_or_empty_tag (p : Post.t) : Prop :=
  is_Some (Post.text p) ∨ "" ∈ Post.tags p.

(** What a read endpoint may answer: an error, or at most [n] documents of
    the collection, in the order of the store. *)
Definition capped (n : nat) (coll : string) (db : store)
  (answer : response (list dict)) : Prop :=
  match answer with
  | OK docs =>
      ∃ d, db = Some d ∧ length docs ≤ n ∧ docs `sublist_of` collection coll d
  | _ => True
  end.

(** *** More example data *)

Definition alerts : list (string * Notification.t) :=
  [("0", Notification.Build "ann" "like" "bob liked your post" None false);
   ("1", Notification.Build "" "system" "maintenance" None false);
   ("2", Notification.Build "ann" "message" "new message" (Some "hi") true)].

Definition alerts_db : Database :=
  {| db_name := "creators"; db_fault := None;
     db_collections := {[ "notification" := stored_notification <$> alerts ]};
     db_generated := 3 |}.

Definition drm_post_payload : value :=
  JObj [("author_id", JStr "u1"); ("content_type", JStr "short_video");
        ("media_url", JStr "https://cdn.example.org/v.mp4");
        ("is_premium", JBool true); ("required_tier", JStr "gold");
        ("drm", JObj [("expire_seconds", JNull)]);
        ("visibility", JStr "subscribers")].

Definition long_error : string :=
  "0123456789012345678901234567890123456789012345678901234567890123456789012345678901234567890123456789".

Definition failing (e : string) : Database :=
  {| db_name := "creators"; db_fault := Some e;
     db_collections := ∅; db_generated := 0 |}.

(** A post as the schema lets it through. *)
Definition well_formed_post {U : UrlParser} (p : Post.t) : Prop :=
  Post.content_type p ∈ content_types
  ∧ Post.visibility p ∈ privacy_levels
  ∧ (∀ u, Post.media_url p = Some u → http_url_ok u = true)
  ∧ (∀ u, Post.thumbnail_url p = Some u → http_url_ok u = true).

Definition backstage : SubscriptionPlan.t :=
  SubscriptionPlan.Build "u1" "Backstage" 500 "USD" [] "bronze".

Definition plans_db : Database :=
  {| db_name := "creators"; db_fault := None;
     db_collections :=
       {[ "subscriptionplan" := [stored "0" (SubscriptionPlan.dump backstage)] ]};
     db_generated := 1 |}.

(** A field that holds a string; a field that is absent, [null] or a
    string. *)
Definition is_str (o : option value) : Prop := ∃ s, o = Some (JStr s).

Definition is_optional_str (o : option value) : Prop :=
  o = None ∨ o = Some JNull ∨ is_str o.

(* ===================================================================== *)
(** ** Dicts and validation                                               *)
(* ===================================================================== *)

Lemma dict_get_set_eq {k : string} {v : value} (d : dict) :
  dict_get k (dict_set k v d) = Some v.
Proof.
  induction d as [|[k' v'] d IH]; simpl.
  - by rewrite String.eqb_refl.
  - destruct (String.eqb k k') eqn:E; simpl; rewrite ?String.eqb_refl, ?E; done.
Qed.

Lemma dict_get_set_ne (k k' : string) (v : value) (d : dict) :
  k ≠ k' → dict_get k' (dict_set k v d) = dict_get k' d.
Proof.
  intros Hne. induction d as [|[k0 v0] d IH]; simpl.
  - destruct (String.eqb_spec k' k); congruence.
  - destruct (String.eqb_spec k k0) as [<-|]; simpl.
    + destruct (String.eqb_spec k' k); congruence.
    + by rewrite IH.
Qed.

Lemma bind_valid {A B : Type} (m : validation A) (f : A → validation B) b :
  m ≫= f = Valid b → ∃ a, m = Valid a ∧ f a = Valid b.
Proof. destruct m as [a|e]; [eauto|done]. Qed.

Lemma required_set_eq {A : Type} k v (d : dict) (t : ftype A) :
  required (dict_set k v d) k t = at_field k (t v).
Proof. unfold required. by rewrite dict_get_set_eq. Qed.

Lemma required_set_ne {A : Type} k k' v (d : dict) (t : ftype A) :
  k ≠ k' → required (dict_set k v d) k' t = required d k' t.
Proof. intros. unfold required. by rewrite dict_get_set_ne. Qed.

Lemma defaulted_set_ne {A : Type} k k' v (d : dict) (t : ftype A) (dflt : A) :
  k ≠ k' → defaulted (dict_set k v d) k' t dflt = defaulted d k' t dflt.
Proof. intros. unfold defaulted. by rewrite dict_get_set_ne. Qed.

(** Take the next field of a successful validation apart. *)
Ltac next_field H x Hx :=
  apply bind_valid in H as (x & Hx & H).

Lemma existsb_eqb_elem_of (s : string) (l : list string) :
  existsb (String.eqb s) l = true ↔ s ∈ l.
Proof.
  induction l as [|x l IH]; simpl.
  - split; [done|]. by intros ?%not_elem_of_nil.
  - rewrite orb_true_iff, String.eqb_eq, IH, elem_of_cons. done.
Qed.

Lemma literal_rejects (allowed : list string) (v : value) :
  v ∉ JStr <$> allowed → t_literal allowed v = fail (LiteralError allowed).
Proof.
  intros Hv. destruct v as [| | |s| |]; try done. simpl.
  destruct (existsb (String.eqb s) allowed) eqn:E; [|done].
  apply existsb_eqb_elem_of in E. destruct Hv.
  apply list_elem_of_fmap. eauto.
Qed.

Lemma nonempty_true (s : string) : s ≠ "" → nonempty s = true.
Proof. intros H. unfold nonempty. by destruct (String.eqb_spec s ""). Qed.

(* ===================================================================== *)
(** ** Patterns                                                           *)
(* ===================================================================== *)

(** A pattern of ordinary characters is the sequence of its characters. *)
Lemma parse_items_plain (cs : list ascii) :
  Forall (λ c, is_meta c = false) cs → parse_items cs = Some (Lit <$> cs).
Proof.
  induction 1 as [|c cs Hc _ IH]; [done|]. simpl.
  destruct (Ascii.eqb_spec c "."%char) as [->|_]; [done|].
  by rewrite Hc, IH.
Qed.

Lemma matches_here_lits (q s : list ascii) :
  matches_here true (Lit <$> q) s = true ↔
  ∃ post, lower <$> s = (lower <$> q) ++ post.
Proof.
  revert s. induction q as [|a q IH]; intros s; csimpl.
  - split; [eauto|done].
  - destruct s as [|c s]; csimpl.
    + split; [done|]. by intros [? ?].
    + rewrite andb_true_iff, Ascii.eqb_eq, IH. split.
      * intros [Hac [post Hs]]. exists post. by rewrite Hac, Hs.
      * intros [post H]. injection H as Hc Hs. eauto.
Qed.

Lemma matches_somewhere_lits (q s : list ascii) :
  matches_somewhere true (Lit <$> q) s = true ↔
  ∃ pre post, lower <$> s = pre ++ (lower <$> q) ++ post.
Proof.
  induction s as [|c s IH]; csimpl; rewrite orb_true_iff, matches_here_lits.
  - split.
    + intros [[post H]|?]; [|done]. by exists [], post.
    + intros (pre & post & H). left. symmetry in H.
      apply app_eq_nil in H as [-> H]. by exists post.
  - rewrite IH. split.
    + intros [[post H]|(pre & post & H)].
      * by exists [], post.
      * exists (lower c :: pre), post. csimpl. by rewrite H.
    + intros ([|c' pre] & post & H).
      * left. by exists post.
      * right. injection H as _ H. by exists pre, post.
Qed.

#[global] Instance ci_contains_dec q t : Decision (ci_contains q t).
Proof.
  refine (cast_if
            (decide (matches_somewhere true (Lit <$> chars q) (chars t) = true)));
    abstract (by rewrite matches_somewhere_lits in *).
Defined.

#[global] Instance search_match_dec q p : Decision (search_match q p).
Proof.
  unfold search_match. destruct (Post.text p) as [t|].
  - destruct (decide (ci_contains q t)) as [H|H].
    + left. left. eauto.
    + destruct (decide (q ∈ Post.tags p)) as [H'|H']; [by left; right|].
      right. intros [(t' & [= <-] & ?)|?]; done.
  - destruct (decide (q ∈ Post.tags p)) as [H'|H']; [by left; right|].
    right. intros [(t' & [=] & ?)|?]; done.
Defined.

#[global] Instance between_dec a b m : Decision (between a b m).
Proof. unfold between. apply _. Defined.

#[global] Instance involves_dec a m : Decision (involves a m).
Proof. unfold involves. apply _. Defined.

#[global] Instance has_tag_dec x p : Decision (has_tag x p).
Proof. unfold has_tag. apply _. Defined.

#[global] Instance by_author_dec y p : Decision (by_author y p).
Proof. unfold by_author. apply _. Defined.

#[global] Instance recommendable_dec p : Decision (recommendable p).
Proof. unfold recommendable. apply _. Defined.

(* ===================================================================== *)
(** ** Filters on stored records                                          *)
(* ===================================================================== *)

Lemma omap_as_string_strs (l : list string) : omap as_string (JStr <$> l) = l.
Proof. induction l; simpl; by f_equal. Qed.

Lemma strings_of_opt (o : option string) :
  strings_of (Some (dump_opt JStr o)) = option_list o.
Proof. by destruct o. Qed.

Lemma strings_of_strs (l : list string) : strings_of (Some (dump_strs l)) = l.
Proof. apply omap_as_string_strs. Qed.

Lemma post_text ip :
  strings_of (dict_get "text" (stored_post ip)) = option_list (Post.text ip.2).
Proof. apply strings_of_opt. Qed.

Lemma post_tags ip :
  strings_of (dict_get "tags" (stored_post ip)) = Post.tags ip.2.
Proof. apply strings_of_strs. Qed.

Lemma post_author_id ip :
  strings_of (dict_get "author_id" (stored_post ip)) = [Post.author_id ip.2].
Proof. reflexivity. Qed.

Lemma post_visibility ip :
  strings_of (dict_get "visibility" (stored_post ip)) = [Post.visibility ip.2].
Proof. reflexivity. Qed.

Lemma message_sender_id im :
  strings_of (dict_get "sender_id" (stored_message im)) = [Message.sender_id im.2].
Proof. reflexivity. Qed.

Lemma message_recipient_id im :
  strings_of (dict_get "recipient_id" (stored_message im))
  = [Message.recipient_id im.2].
Proof. reflexivity. Qed.

(** Filtering the stored form of records is filtering the records. *)
Lemma filter_stored {A : Type} (g : A → dict) (f : dict → bool)
    (P : A → Prop) `{!∀ x, Decision (P x)} (l : list A) :
  (∀ x, f (g x) = true ↔ P x) →
  List.filter f (g <$> l) = g <$> filter P l.
Proof.
  intros Hf. induction l as [|x l IH]; [done|]. csimpl.
  rewrite filter_cons. destruct (decide (P x)) as [HP|HP].
  - apply Hf in HP as ->. csimpl. by rewrite IH.
  - destruct (f (g x)) eqn:E; [by apply Hf in E|done].
Qed.

Lemma take_filter_sublist {A : Type} (P : A → Prop) `{!∀ x, Decision (P x)}
    (n : nat) (l : list A) :
  take n (filter P l) ⊆ l.
Proof.
  intros x Hx. apply (subseteq_take n) in Hx.
  by apply list_elem_of_filter in Hx as [_ ?].
Qed.

Section Filters.
Context {E : RegexEngine}.

(** On a plain pattern the case-insensitive search of the store is the
    case-insensitive substring test. *)
Lemma regex_search_plain (q t : string) :
  plain q → regex_search q "i" t = true ↔ ci_contains q t.
Proof.
  intros Hq.
  unfold regex_search, regex_compile, parse_pattern, ci_contains, plain, chars in *.
  rewrite (parse_items_plain _ Hq). apply matches_somewhere_lits.
Qed.

Lemma regex_compile_plain (q : string) :
  plain q → is_Some (regex_compile q "i").
Proof.
  intros Hq. unfold regex_compile, parse_pattern, plain, chars in *.
  rewrite (parse_items_plain _ Hq). simpl. eauto.
Qed.

Lemma any_of_one (x : string) (l : list string) :
  existsb (test_string (AnyOf [x])) l = true ↔ x ∈ l.
Proof.
  induction l as [|s l IH]; simpl.
  - split; [done|]. by intros ?%not_elem_of_nil.
  - rewrite !orb_true_iff, String.eqb_eq, IH, elem_of_cons.
    intuition congruence.
Qed.

Lemma equals_one (x s : string) :
  existsb (test_string (Equals x)) [s] = true ↔ s = x.
Proof. simpl. rewrite orb_false_r. apply String.eqb_eq. Qed.

Lemma cond_holds_unfold doc f c :
  cond_holds doc (f, c) = existsb (test_string c) (strings_of (dict_get f doc)).
Proof. reflexivity. Qed.

Lemma tagged_with x ip :
  cond_holds (stored_post ip) ("tags", AnyOf [x]) = true ↔ has_tag x ip.2.
Proof. rewrite cond_holds_unfold, post_tags. apply any_of_one. Qed.

Lemma written_by y ip :
  cond_holds (stored_post ip) ("author_id", Equals y) = true ↔ by_author y ip.2.
Proof. rewrite cond_holds_unfold, post_author_id. apply equals_one. Qed.

Lemma sent_by a im :
  cond_holds (stored_message im) ("sender_id", Equals a) = true
  ↔ Message.sender_id im.2 = a.
Proof. rewrite cond_holds_unfold, message_sender_id. apply equals_one. Qed.

Lemma received_by a im :
  cond_holds (stored_message im) ("recipient_id", Equals a) = true
  ↔ Message.recipient_id im.2 = a.
Proof. rewrite cond_holds_unfold, message_recipient_id. apply equals_one. Qed.

Lemma visible_to_all ip :
  cond_holds (stored_post ip) ("visibility", AnyOf ["public"; "followers"]) = true
  ↔ recommendable ip.2.
Proof.
  rewrite cond_holds_unfold, post_visibility. simpl.
  rewrite !orb_false_r, orb_true_iff, !String.eqb_eq. done.
Qed.

Lemma text_matches q ip :
  plain q →
  cond_holds (stored_post ip) ("text", Regex q "i") = true
  ↔ ∃ t, Post.text ip.2 = Some t ∧ ci_contains q t.
Proof.
  intros Hq. rewrite cond_holds_unfold, post_text.
  destruct (Post.text ip.2) as [t|]; simpl.
  - rewrite orb_false_r, (regex_search_plain _ _ Hq). split; [by eauto|].
    by intros (? & [= <-] & ?).
  - split; [done|]. by intros (? & [=] & _).
Qed.

Lemma search_query_compiles q :
  plain q →
  query_compiles (Or [[("text", Regex q "i")]; [("tags", AnyOf [q])]]) = true.
Proof.
  intros Hq. unfold query_compiles, forallb, cond_compiles. simpl.
  by rewrite (bool_decide_eq_true_2 _ (regex_compile_plain _ Hq)).
Qed.

Lemma search_query_matches q ip :
  plain q →
  query_matches (Or [[("text", Regex q "i")]; [("tags", AnyOf [q])]])
    (stored_post ip) = true
  ↔ search_match q ip.2.
Proof.
  intros Hq. unfold query_matches, conds_hold, search_match, forallb, existsb.
  rewrite !andb_true_r, orb_false_r, orb_true_iff.
  rewrite (text_matches _ _ Hq), tagged_with. done.
Qed.

Lemma between_query_matches a b im :
  query_matches
    (Or [[("sender_id", Equals a); ("recipient_id", Equals b)];
         [("sender_id", Equals b); ("recipient_id", Equals a)]])
    (stored_message im) = true
  ↔ between a b im.2.
Proof.
  unfold query_matches, conds_hold, between, forallb, existsb.
  rewrite !andb_true_r, orb_false_r, orb_true_iff, !andb_true_iff.
  rewrite !sent_by, !received_by. done.
Qed.

Lemma involves_query_matches a im :
  query_matches (Or [[("sender_id", Equals a)]; [("recipient_id", Equals a)]])
    (stored_message im) = true
  ↔ involves a im.2.
Proof.
  unfold query_matches, conds_hold, involves, forallb, existsb.
  rewrite !andb_true_r, orb_false_r, orb_true_iff.
  rewrite !sent_by, !received_by. done.
Qed.

Lemma filter_everything (l : list dict) :
  List.filter (query_matches (Fields [])) l = l.
Proof. induction l; simpl; by f_equal. Qed.

(** *** Reads of a store in working order *)

Lemma get_documents_up coll q n d :
  db_fault d = None → query_compiles q = true →
  get_documents coll q n (Some d)
  = Return (take n (List.filter (query_matches q) (collection coll d))).
Proof. intros Hup Hq. unfold get_documents. by rewrite Hup, Hq. Qed.

Lemma find_posts q n d ps ms (P : Post.t → Prop) `{!∀ p, Decision (P p)} :
  holds d ps ms → query_compiles q = true →
  (∀ ip, query_matches q (stored_post ip) = true ↔ P ip.2) →
  get_documents "post" q n (Some d)
  = Return (stored_post <$> take n (filter (λ ip, P ip.2) ps)).
Proof.
  intros [Hup Hps _] Hq HP. rewrite get_documents_up by done.
  by rewrite Hps, (filter_stored _ _ (λ ip, P ip.2)), fmap_take.
Qed.

Lemma find_messages q n d ps ms (P : Message.t → Prop) `{!∀ m, Decision (P m)} :
  holds d ps ms → query_compiles q = true →
  (∀ im, query_matches q (stored_message im) = true ↔ P im.2) →
  get_documents "message" q n (Some d)
  = Return (stored_message <$> take n (filter (λ im, P im.2) ms)).
Proof.
  intros [Hup _ Hms] Hq HP. rewrite get_documents_up by done.
  by rewrite Hms, (filter_stored _ _ (λ im, P im.2)), fmap_take.
Qed.

Lemma list_all_up coll n d :
  db_fault d = None → length (collection coll d) ≤ n →
  get_documents coll (Fields []) n (Some d) = Return (collection coll d).
Proof.
  intros Hup Hn. rewrite get_documents_up by done.
  by rewrite filter_everything, take_ge.
Qed.

End Filters.

(* ===================================================================== *)
(** ** Writes of a store in working order                                 *)
(* ===================================================================== *)

Lemma create_document_up coll data d :
  db_fault d = None →
  create_document coll data (Some d)
  = (Return (object_id (db_generated d)), Some (inserted coll data d)).
Proof. intros Hup. unfold create_document. by rewrite Hup. Qed.

Lemma collection_inserted coll data d :
  collection coll (inserted coll data d)
  = collection coll d ++ [stored (object_id (db_generated d)) data].
Proof. unfold collection at 1, inserted. simpl. by rewrite lookup_insert_eq. Qed.

Lemma collection_inserted_ne coll coll' data d :
  coll ≠ coll' → collection coll' (inserted coll data d) = collection coll' d.
Proof.
  intros. unfold collection, inserted. simpl. by rewrite lookup_insert_ne.
Qed.

Lemma post_endpoint_invalid {T A : Type} (validate : ftype T)
    (handler : T → action A) payload db :
  passes validate payload = false →
  ∃ e, post_endpoint validate handler payload db = (UnprocessableEntity e, db).
Proof.
  unfold passes, post_endpoint. destruct (validate payload); [done|eauto].
Qed.

Lemma post_endpoint_up {T : Type} (validate : ftype T) (dump : T → dict)
    (coll : string) payload x d :
  validate payload = Valid x → db_fault d = None →
  post_endpoint validate
    (λ x, new_id ← insert_one coll (dump x); mret {| id := new_id |})
    payload (Some d)
  = (OK {| id := object_id (db_generated d) |}, Some (inserted coll (dump x) d)).
Proof.
  intros Hv Hup. unfold post_endpoint. rewrite Hv.
  unfold mbind, action_bind, insert_one.
  by rewrite (create_document_up _ _ _ Hup).
Qed.

(* ===================================================================== *)
(** ** The records of a running service                                   *)
(* ===================================================================== *)

Lemma inserted_holds coll data d ps ms :
  holds d ps ms →
  (coll = "post" → ∃ p, data = Post.dump p) →
  (coll = "message" → ∃ m, data = Message.dump m) →
  ∃ ps' ms', holds (inserted coll data d) ps' ms'.
Proof.
  intros [Hup Hps Hms] Hpost Hmessage.
  destruct (decide (coll = "post")) as [->|Hp].
  - destruct (Hpost eq_refl) as [p ->].
    exists (ps ++ [(object_id (db_generated d), p)]), ms. split; [done|..].
    + by rewrite collection_inserted, Hps, fmap_app.
    + by rewrite collection_inserted_ne.
  - destruct (decide (coll = "message")) as [->|Hm].
    + destruct (Hmessage eq_refl) as [m ->].
      exists ps, (ms ++ [(object_id (db_generated d), m)]). split; [done|..].
      * by rewrite collection_inserted_ne.
      * by rewrite collection_inserted, Hms, fmap_app.
    + exists ps, ms. split; [done|..]; by rewrite collection_inserted_ne.
Qed.

Lemma post_endpoint_holds {T : Type} (validate : ftype T) (dump : T → dict)
    (coll : string) payload d ps ms answer db' :
  holds d ps ms →
  (coll = "post" → ∀ x, ∃ p, dump x = Post.dump p) →
  (coll = "message" → ∀ x, ∃ m, dump x = Message.dump m) →
  post_endpoint validate
    (λ x, new_id ← insert_one coll (dump x); mret {| id := new_id |})
    payload (Some d) = (answer, db') →
  ∃ d' ps' ms', db' = Some d' ∧ holds d' ps' ms'.
Proof.
  intros Hd Hpost Hmessage.
  destruct (validate payload) as [x|e] eqn:Hv.
  - rewrite (post_endpoint_up _ _ _ _ _ _ Hv (holds_up _ _ _ Hd)).
    intros [= _ <-].
    destruct (inserted_holds coll (dump x) d ps ms Hd) as (ps' & ms' & ?);
      eauto.
  - unfold post_endpoint. rewrite Hv. intros [= _ <-]. eauto.
Qed.

(** Every create request leaves a store in working order whose posts and
    messages are validated records. *)
Lemma create_holds {U : UrlParser} {I : IntParser} r payload d ps ms answer db' :
  holds d ps ms →
  create r payload (Some d) = (answer, db') →
  ∃ d' ps' ms', db' = Some d' ∧ holds d' ps' ms'.
Proof.
  intros Hd.
  destruct r; simpl;
    (eapply post_endpoint_holds; [exact Hd|intros Heq; try discriminate Heq..]).
  - intros x. by exists x.
  - intros x. by exists x.
Qed.

Lemma reachable_holds {U : UrlParser} {I : IntParser} d :
  reachable d → ∃ ps ms, holds d ps ms.
Proof.
  induction 1 as [name|r payload d answer d' _ (ps & ms & Hd) Hstep].
  - by exists [], [].
  - destruct (create_holds _ _ _ _ _ _ _ Hd Hstep) as (? & ps' & ms' & [= <-] & ?).
    eauto.
Qed.

(* ===================================================================== *)
(** ** Search (claim C1)                                                  *)
(* ===================================================================== *)

(** C1, counterexample.  The query [.] is a pattern that stands for any
    character: the search returns a post whose text is [abc] and that has
    no tag, although [abc] does not contain a dot. *)
Lemma search_dot_is_a_wildcard :
  ∃ db,
    POST_posts (U:=scheme_only) (I:=decimal_only) abc_payload (Some fresh) = (OK {| id := "0" |}, db)
    ∧ POST_search (E:=no_extensions) (JObj [("q", JStr ".")]) db
      = OK [stored_post ("0", abc_post)]
    ∧ ¬ search_match "." abc_post.
Proof.
  eexists. split; [vm_compute; reflexivity|]. split; [vm_compute; reflexivity|].
  apply (bool_decide_eq_false_1 (search_match "." abc_post)).
  vm_compute. reflexivity.
Qed.

(** C1, as amended.  For every search payload whose [q] has no
    regular-expression metacharacter, POST /search on a store in working
    order returns posts only, at most 50: the first 50 posts, in the order
    of the store, whose text contains [q] as a case-insensitive substring
    or that have [q] among their tags. *)
Theorem search_returns_matching_posts {E : RegexEngine} d ps ms
    (payload : value) (q : string) :
  holds d ps ms →
  SearchQuery.validate payload = Valid (SearchQuery.Build q) →
  plain q →
  ∃ hits,
    POST_search payload (Some d) = OK (stored_post <$> hits)
    ∧ hits = take 50 (filter (λ ip, search_match q ip.2) ps)
    ∧ length hits ≤ 50
    ∧ hits ⊆ ps.
Proof.
  intros Hd Hv Hq. eexists. split; [|split; [reflexivity|split]].
  - unfold POST_search, search. rewrite Hv. cbn [SearchQuery.q].
    by rewrite (find_posts _ _ _ _ _ (search_match q) Hd
                  (search_query_compiles _ Hq)
                  (λ ip, search_query_matches q ip Hq)).
  - rewrite length_take. lia.
  - apply take_filter_sublist.
Qed.

Lemma two_posts_created :
  after [λ db, (POST_posts (U:=scheme_only) (I:=decimal_only) hello_payload db).2;
         λ db, (POST_posts (U:=scheme_only) (I:=decimal_only) diary_payload db).2] (Some fresh)
  = Some two_posts_db.
Proof. vm_compute. reflexivity. Qed.

Lemma two_posts_held : holds two_posts_db two_posts [].
Proof. split; vm_compute; reflexivity. Defined.

Lemma search_returns_matching_posts_witness :
  holds two_posts_db two_posts []
  ∧ plain "R D"
  ∧ ∃ hits,
      POST_search (E:=no_extensions) (JObj [("q", JStr "R D")]) (Some two_posts_db)
      = OK (stored_post <$> hits)
      ∧ hits = take 50 (filter (λ ip, search_match "R D" ip.2) two_posts)
      ∧ length hits ≤ 50
      ∧ hits ⊆ two_posts.
Proof.
  split; [exact two_posts_held|].
  split; [repeat constructor|].
  apply (search_returns_matching_posts (E:=no_extensions) two_posts_db
           two_posts [] (JObj [("q", JStr "R D")]) "R D").
  - exact two_posts_held.
  - reflexivity.
  - repeat constructor.
Defined.

Example search_r_d :
  POST_search (E:=no_extensions) (JObj [("q", JStr "R D")]) (Some two_posts_db)
  = OK [stored_post ("1", diary_post)].
Proof. vm_compute. reflexivity. Qed.

(* ===================================================================== *)
(** ** Messages (claim C2)                                                *)
(* ===================================================================== *)

Lemma chat_created :
  after [λ db, (POST_messages (message_payload "ann" "bob" "hi") db).2;
         λ db, (POST_messages (message_payload "bob" "ann" "hello") db).2;
         λ db, (POST_messages (message_payload "ann" "cy" "lunch?") db).2;
         λ db, (POST_messages (message_payload "cy" "dee" "busy") db).2]
    (Some fresh)
  = Some chat_db.
Proof. vm_compute. reflexivity. Qed.

Lemma chat_held : holds chat_db [] chat.
Proof. split; vm_compute; reflexivity. Defined.

(** C2, counterexample.  With the empty string as [with_user], GET
    /messages for [ann] returns her message to [cy], which is not a
    message between [ann] and the user with the empty identifier. *)
Lemma get_messages_empty_with_user :
  GET_messages (E:=no_extensions) "ann" (Some "") (Some chat_db)
  = OK (stored_message <$> take 3 chat)
  ∧ ("2", Message.Build "ann" "cy" "lunch?" None) ∈ take 3 chat
  ∧ ¬ between "ann" "" (Message.Build "ann" "cy" "lunch?" None).
Proof.
  split; [vm_compute; reflexivity|]. split.
  - unfold chat. simpl. rewrite !elem_of_cons. auto.
  - apply (bool_decide_eq_false_1 (between "ann" "" _)). reflexivity.
Qed.

(** C2, as amended.  For every user identifier [a] and every non-empty
    user identifier [b], GET /messages with [user_id=a] and [with_user=b]
    on a store in working order returns the first 200 messages whose sender
    and recipient are exactly [(a, b)] or [(b, a)]; with [with_user] omitted
    it returns the first 200 messages that [a] sent or received. *)
Theorem get_messages_by_participants {E : RegexEngine} d ps ms (a b : string) :
  holds d ps ms → b ≠ "" →
  GET_messages a (Some b) (Some d)
  = OK (stored_message <$> take 200 (filter (λ im, between a b im.2) ms))
  ∧ GET_messages a None (Some d)
    = OK (stored_message <$> take 200 (filter (λ im, involves a im.2) ms)).
Proof.
  intros Hd Hb. unfold GET_messages, get_messages.
  rewrite (nonempty_true _ Hb). split.
  - rewrite (find_messages _ _ _ _ _ (between a b) Hd); [done..|].
    intros im. apply between_query_matches.
  - rewrite (find_messages _ _ _ _ _ (involves a) Hd); [done..|].
    intros im. apply involves_query_matches.
Qed.

Lemma get_messages_by_participants_witness :
  holds chat_db [] chat ∧ "bob" ≠ ""
  ∧ GET_messages (E:=no_extensions) "ann" (Some "bob") (Some chat_db)
    = OK (stored_message <$> take 200 (filter (λ im, between "ann" "bob" im.2) chat))
  ∧ GET_messages (E:=no_extensions) "ann" None (Some chat_db)
    = OK (stored_message <$> take 200 (filter (λ im, involves "ann" im.2) chat)).
Proof.
  split; [exact chat_held|]. split; [discriminate|].
  apply (get_messages_by_participants (E:=no_extensions) chat_db [] chat
           "ann" "bob"); [exact chat_held|discriminate].
Defined.

Example get_messages_ann_bob :
  GET_messages (E:=no_extensions) "ann" (Some "bob") (Some chat_db)
  = OK (stored_message <$> take 2 chat).
Proof. vm_compute. reflexivity. Qed.

(* ===================================================================== *)
(** ** Listing posts (claim C3)                                           *)
(* ===================================================================== *)

(** C3, counterexample.  With the empty string as tag, GET /posts puts no
    condition on the tags: it returns the diary post, which has no tag at
    all. *)
Lemma list_posts_empty_tag_unrestricted :
  GET_posts (E:=no_extensions) (Some "") None (Some two_posts_db)
  = OK (stored_post <$> two_posts)
  ∧ ("1", diary_post) ∈ two_posts
  ∧ ¬ has_tag "" diary_post.
Proof.
  split; [vm_compute; reflexivity|]. split.
  - unfold two_posts. rewrite !elem_of_cons. auto.
  - apply (bool_decide_eq_false_1 (has_tag "" diary_post)). reflexivity.
Qed.

(** C3, as amended.  For every non-empty tag [x] and non-empty author
    identifier [y], GET /posts with [tag=x] on a store in working order
    returns the first 100 posts whose tags contain [x], and with [tag=x] and
    [author_id=y] the first 100 posts that satisfy both conditions. *)
Theorem list_posts_by_tag_and_author {E : RegexEngine} d ps ms (x y : string) :
  holds d ps ms → x ≠ "" → y ≠ "" →
  GET_posts (Some x) None (Some d)
  = OK (stored_post <$> take 100 (filter (λ ip, has_tag x ip.2) ps))
  ∧ GET_posts (Some x) (Some y) (Some d)
    = OK (stored_post <$>
            take 100 (filter (λ ip, has_tag x ip.2 ∧ by_author y ip.2) ps)).
Proof.
  intros Hd Hx Hy. unfold GET_posts, list_posts.
  rewrite (nonempty_true _ Hx), (nonempty_true _ Hy). simpl dict_set. split.
  - rewrite (find_posts _ _ _ _ _ (has_tag x) Hd); [done..|].
    intros ip. unfold query_matches, conds_hold, forallb.
    by rewrite andb_true_r, tagged_with.
  - rewrite (find_posts _ _ _ _ _ (λ p, has_tag x p ∧ by_author y p) Hd);
      [done..|].
    intros ip. unfold query_matches, conds_hold, forallb.
    by rewrite andb_true_r, andb_true_iff, tagged_with, written_by.
Qed.

Lemma list_posts_by_tag_and_author_witness :
  holds two_posts_db two_posts [] ∧ "intro" ≠ "" ∧ "u1" ≠ ""
  ∧ GET_posts (E:=no_extensions) (Some "intro") None (Some two_posts_db)
    = OK (stored_post <$> take 100 (filter (λ ip, has_tag "intro" ip.2) two_posts))
  ∧ GET_posts (E:=no_extensions) (Some "intro") (Some "u1") (Some two_posts_db)
    = OK (stored_post <$>
            take 100 (filter (λ ip, has_tag "intro" ip.2 ∧ by_author "u1" ip.2)
                        two_posts)).
Proof.
  split; [exact two_posts_held|]. split; [discriminate|]. split; [discriminate|].
  apply (list_posts_by_tag_and_author (E:=no_extensions) two_posts_db
           two_posts [] "intro" "u1");
    [exact two_posts_held|discriminate|discriminate].
Defined.

(** The example of the specification: after the post tagged [intro] is
    created, [tag=intro] includes it and [tag=other] excludes it. *)
Example list_posts_intro_other :
  GET_posts (E:=no_extensions) (Some "intro") None (Some two_posts_db)
  = OK [stored_post ("0", hello_post)]
  ∧ GET_posts (E:=no_extensions) (Some "other") None (Some two_posts_db) = OK [].
Proof. split; vm_compute; reflexivity. Qed.

(* ===================================================================== *)
(** ** Validation before the write (claim C4)                             *)
(* ===================================================================== *)

Lemma post_content_type_rejected {U : UrlParser} {I : IntParser} fields v :
  dict_get "content_type" fields = Some v → v ∉ JStr <$> content_types →
  passes Post.validate (JObj fields) = false.
Proof.
  intros Hget Hv. unfold passes, Post.validate. simpl as_object.
  change (Valid fields ≫= ?f) with (f fields). cbv beta.
  destruct (required fields "author_id" t_str); [|done].
  change (Valid ?a ≫= ?f) with (f a). cbv beta.
  unfold required at 1. rewrite Hget, (literal_rejects _ _ Hv). done.
Qed.

(** C4.  For every create endpoint and every payload that does not satisfy
    the schema of its entity, the request fails with a validation error and
    the store is left as it was; a post whose [content_type] is not one of
    the five allowed values is such a payload. *)
Theorem invalid_payload_rejected_before_write {U : UrlParser} {I : IntParser}
    (r : create_route) (payload : value) (db : store) :
  (accepts r payload = false →
   ∃ e, create r payload db = (UnprocessableEntity e, db))
  ∧ (∀ fields v,
       payload = JObj fields →
       dict_get "content_type" fields = Some v →
       v ∉ JStr <$> content_types →
       ∃ e, create Posts payload db = (UnprocessableEntity e, db)).
Proof.
  split.
  - destruct r; apply post_endpoint_invalid.
  - intros fields v -> Hget Hv.
    apply post_endpoint_invalid, (post_content_type_rejected _ _ Hget Hv).
Qed.

Lemma invalid_payload_rejected_before_write_witness :
  accepts (U:=scheme_only) (I:=decimal_only) Posts bogus_payload = false
  ∧ (∃ e, create (U:=scheme_only) (I:=decimal_only) Posts bogus_payload (Some two_posts_db)
          = (UnprocessableEntity e, Some two_posts_db))
  ∧ (∃ e, create (U:=scheme_only) (I:=decimal_only) Posts bogus_payload None
          = (UnprocessableEntity e, None)).
Proof.
  split; [reflexivity|]. split.
  - apply (proj1 (invalid_payload_rejected_before_write (U:=scheme_only) (I:=decimal_only)
                    Posts bogus_payload (Some two_posts_db))).
    reflexivity.
  - apply (proj2 (invalid_payload_rejected_before_write (U:=scheme_only) (I:=decimal_only)
                    Posts bogus_payload None)
             [("author_id", JStr "u1"); ("content_type", JStr "bogus")]
             (JStr "bogus")); [reflexivity..|].
    unfold content_types. rewrite !fmap_cons, !not_elem_of_cons.
    repeat split; try discriminate. apply not_elem_of_nil.
Defined.

Example bogus_content_type :
  POST_posts (U:=scheme_only) (I:=decimal_only) bogus_payload (Some fresh)
  = (UnprocessableEntity
       (ValidationError ["content_type"] (LiteralError content_types)),
     Some fresh).
Proof. reflexivity. Qed.

(* ===================================================================== *)
(** ** Recommendations (claim C5)                                         *)
(* ===================================================================== *)

(** C5.  For every [user_id], given or not, GET /recommendations on a store
    in working order returns the first 20 posts whose visibility is
    [public] or [followers]: at most 20 posts, none of them [private] or
    [subscribers]; and the answer is the same for any two values of
    [user_id], whatever the state of the store. *)
Theorem recommendations_public_or_followers {E : RegexEngine} d ps ms
    (user_id : option string) :
  holds d ps ms →
  ∃ hits,
    GET_recommendations user_id (Some d) = OK (stored_post <$> hits)
    ∧ hits = take 20 (filter (λ ip, recommendable ip.2) ps)
    ∧ length hits ≤ 20
    ∧ hits ⊆ ps
    ∧ Forall (λ ip, Post.visibility ip.2 ≠ "private"
                    ∧ Post.visibility ip.2 ≠ "subscribers") hits
    ∧ ∀ user_id' db,
        GET_recommendations user_id' db = GET_recommendations user_id db.
Proof.
  intros Hd. eexists. split; [|split; [reflexivity|]].
  - unfold GET_recommendations, recommendations.
    rewrite (find_posts _ _ _ _ _ recommendable Hd); [done..|].
    intros ip. unfold query_matches, conds_hold, forallb.
    by rewrite andb_true_r, visible_to_all.
  - split; [rewrite length_take; lia|]. split; [apply take_filter_sublist|].
    split; [|done]. apply Forall_forall. intros ip Hip.
    apply (subseteq_take 20), list_elem_of_filter in Hip as [[Hv|Hv] _];
      rewrite Hv; done.
Qed.

Lemma recommendations_public_or_followers_witness :
  holds two_posts_db two_posts []
  ∧ ∃ hits,
      GET_recommendations (E:=no_extensions) (Some "u2") (Some two_posts_db)
      = OK (stored_post <$> hits)
      ∧ hits = take 20 (filter (λ ip, recommendable ip.2) two_posts)
      ∧ length hits ≤ 20
      ∧ hits ⊆ two_posts
      ∧ Forall (λ ip, Post.visibility ip.2 ≠ "private"
                      ∧ Post.visibility ip.2 ≠ "subscribers") hits
      ∧ ∀ user_id' db,
          GET_recommendations (E:=no_extensions) user_id' db
          = GET_recommendations (E:=no_extensions) (Some "u2") db.
Proof.
  split; [exact two_posts_held|].
  exact (recommendations_public_or_followers (E:=no_extensions) two_posts_db
           two_posts [] (Some "u2") two_posts_held).
Defined.

Example recommendations_skip_private :
  GET_recommendations (E:=no_extensions) (Some "u2") (Some two_posts_db)
  = OK [stored_post ("0", hello_post)].
Proof. vm_compute. reflexivity. Qed.

(* ===================================================================== *)
(** ** Create, then list (claim C6)                                       *)
(* ===================================================================== *)

(** C6, counterexample.  GET /users returns 50 documents at most: in a
    store that holds fifty users already, the user created next is not in
    the list, which is the list from before the create. *)
Lemma fifty_first_user_not_listed :
  ∃ db' docs,
    User.validate (U:=scheme_only) ann_payload = Valid ann
    ∧ POST_users (U:=scheme_only) ann_payload fifty_users
      = (OK {| id := "50" |}, db')
    ∧ GET_users (E:=no_extensions) db' = OK docs
    ∧ GET_users (E:=no_extensions) fifty_users = OK docs
    ∧ length docs = 50
    ∧ stored "50" (User.dump ann) ∉ docs.
Proof.
  eexists _, _. split; [reflexivity|].
  split; [vm_compute; reflexivity|].
  split; [vm_compute; reflexivity|].
  split; [vm_compute; reflexivity|].
  split; [reflexivity|].
  intros Hin. apply list_elem_of_In in Hin. vm_compute in Hin.
  repeat (destruct Hin as [Hin|Hin]; [discriminate Hin|]). exact Hin.
Qed.

Lemma insert_then_list_all {E : RegexEngine} {T : Type} (validate : ftype T)
    (dump : T → dict) (coll : string) (n : nat) payload x d :
  validate payload = Valid x → db_fault d = None →
  length (collection coll d) < n →
  ∃ i db' docs,
    post_endpoint validate
      (λ x, new_id ← insert_one coll (dump x); mret {| id := new_id |})
      payload (Some d) = (OK {| id := i |}, db')
    ∧ respond (get_documents coll (Fields []) n db') = OK docs
    ∧ stored i (dump x) ∈ docs.
Proof.
  intros Hv Hup Hn. eexists _, _, _.
  split; [by apply post_endpoint_up|].
  rewrite list_all_up; [split; [reflexivity|]|done|].
  - rewrite collection_inserted, elem_of_app, list_elem_of_singleton. auto.
  - rewrite collection_inserted, length_app. simpl. lia.
Qed.

(** C6, as amended.  For every valid user payload, on a store in working
    order whose user collection holds fewer than 50 documents, POST /users
    and then GET /users returns a list that contains the created document;
    likewise for posts, with fewer than 100 documents, POST /posts and GET
    /posts without filter parameters. *)
Theorem create_then_list {U : UrlParser} {I : IntParser} {E : RegexEngine}
    (payload : value) (d : Database) :
  db_fault d = None →
  (∀ u, User.validate payload = Valid u →
        length (collection "user" d) < 50 →
        ∃ i db' docs,
          POST_users payload (Some d) = (OK {| id := i |}, db')
          ∧ GET_users db' = OK docs
          ∧ stored i (User.dump u) ∈ docs)
  ∧ (∀ p, Post.validate payload = Valid p →
          length (collection "post" d) < 100 →
          ∃ i db' docs,
            POST_posts payload (Some d) = (OK {| id := i |}, db')
            ∧ GET_posts None None db' = OK docs
            ∧ stored i (Post.dump p) ∈ docs).
Proof.
  intros Hup. split.
  - intros u Hv Hn.
    exact (insert_then_list_all User.validate User.dump "user" 50 _ _ _ Hv Hup Hn).
  - intros p Hv Hn.
    exact (insert_then_list_all Post.validate Post.dump "post" 100 _ _ _ Hv Hup Hn).
Qed.

Lemma create_then_list_witness :
  db_fault fresh = None
  ∧ (∃ i db' docs,
       POST_users (U:=scheme_only) ann_payload (Some fresh) = (OK {| id := i |}, db')
       ∧ GET_users (E:=no_extensions) db' = OK docs
       ∧ stored i (User.dump ann) ∈ docs)
  ∧ (∃ i db' docs,
       POST_posts (U:=scheme_only) (I:=decimal_only) hello_payload (Some two_posts_db)
       = (OK {| id := i |}, db')
       ∧ GET_posts (E:=no_extensions) None None db' = OK docs
       ∧ stored i (Post.dump hello_post) ∈ docs).
Proof.
  split; [reflexivity|]. split.
  - apply (proj1 (create_then_list (U:=scheme_only) (I:=decimal_only) (E:=no_extensions)
                    ann_payload fresh eq_refl) ann);
      [reflexivity|vm_compute; lia].
  - apply (proj2 (create_then_list (U:=scheme_only) (I:=decimal_only) (E:=no_extensions)
                    hello_payload two_posts_db eq_refl) hello_post);
      [reflexivity|vm_compute; lia].
Defined.

(* ===================================================================== *)
(** ** Diagnostics (claim C7)                                             *)
(* ===================================================================== *)

(** C7.  Whatever the state of the store (not configured, reachable but
    failing, or connected), GET /test answers 200 with a body that
    describes that state, and never with an error; a connected store is
    reported with 20 collection names at most. *)
Theorem test_always_answers (db : store) :
  ∃ body status names,
    GET_test db = OK body
    ∧ dict_get "backend" body = Some (JStr "✅ Running")
    ∧ dict_get "database" body = Some (JStr status)
    ∧ dict_get "collections" body = Some (dump_strs names)
    ∧ length names ≤ 20
    ∧ match db with
      | None => status = "❌ Not Available" ∧ names = []
      | Some d =>
          match db_fault d with
          | Some e =>
              status = "⚠️ Connected but Error: " +:+ str_take 80 e ∧ names = []
          | None =>
              status = "✅ Connected & Working"
              ∧ names = take 20 (map_to_list (db_collections d)).*1
          end
      end.
Proof.
  destruct db as [d|]; [destruct (db_fault d) as [e|] eqn:Hfault|];
    unfold GET_test, test_database, list_collection_names; rewrite ?Hfault.
  - exists [("backend", JStr "✅ Running");
            ("database", JStr ("⚠️ Connected but Error: " +:+ str_take 80 e));
            ("database_url", JStr "✅ Set");
            ("database_name", JStr (db_name d));
            ("connection_status", JStr "Connected");
            ("collections", JList [])],
      ("⚠️ Connected but Error: " +:+ str_take 80 e), [].
    repeat split; simpl; lia.
  - exists [("backend", JStr "✅ Running");
            ("database", JStr "✅ Connected & Working");
            ("database_url", JStr "✅ Set");
            ("database_name", JStr (db_name d));
            ("connection_status", JStr "Connected");
            ("collections",
             dump_strs (take 20 (map_to_list (db_collections d)).*1))],
      "✅ Connected & Working", (take 20 (map_to_list (db_collections d)).*1).
    repeat split. rewrite length_take. lia.
  - exists [("backend", JStr "✅ Running");
            ("database", JStr "❌ Not Available");
            ("database_url", JStr "❌ Not Set");
            ("database_name", JStr "❌ Not Set");
            ("connection_status", JStr "Not Connected");
            ("collections", JList [])],
      "❌ Not Available", [].
    repeat split; simpl; lia.
Qed.

Example test_failing_store :
  GET_test (Some timed_out)
  = OK [("backend", JStr "✅ Running");
        ("database", JStr "⚠️ Connected but Error: timed out");
        ("database_url", JStr "✅ Set");
        ("database_name", JStr "creators");
        ("connection_status", JStr "Connected");
        ("collections", JList [])].
Proof. reflexivity. Qed.

Example test_two_posts :
  GET_test (Some two_posts_db)
  = OK [("backend", JStr "✅ Running");
        ("database", JStr "✅ Connected & Working");
        ("database_url", JStr "✅ Set");
        ("database_name", JStr "creators");
        ("connection_status", JStr "Connected");
        ("collections", JList [JStr "post"])].
Proof. vm_compute. reflexivity. Qed.

(* ===================================================================== *)
(** ** Subscription plans (claim C8)                                      *)
(* ===================================================================== *)

Lemma plan_price_checked {I : IntParser} payload p :
  SubscriptionPlan.validate payload = Valid p →
  ∃ fields v,
    payload = JObj fields
    ∧ dict_get "price_cents" fields = Some v
    ∧ int_value v = Some (SubscriptionPlan.price_cents p)
    ∧ (0 ≤ SubscriptionPlan.price_cents p)%Z.
Proof.
  intros H. unfold SubscriptionPlan.validate in H.
  next_field H fields Hobj. destruct payload; try done. injection Hobj as ->.
  next_field H creator Hc. next_field H title Ht. next_field H price Hp.
  next_field H currency Hcur. next_field H benefits Hb. next_field H tier Hti.
  injection H as <-. simpl. exists fields.
  unfold required in Hp. destruct (dict_get "price_cents" fields) as [v|]; [|done].
  exists v. split; [done|]. split; [done|].
  unfold t_int_ge, t_int in Hp. destruct (int_value v) as [n|]; [|done].
  simpl in Hp. destruct (Z.leb_spec 0 n); [|done]. by injection Hp as ->.
Qed.

Lemma plan_negative_price_rejected {I : IntParser} fields v n :
  dict_get "price_cents" fields = Some v → int_value v = Some n → (n < 0)%Z →
  passes SubscriptionPlan.validate (JObj fields) = false.
Proof.
  intros Hget Hv Hn. unfold passes.
  destruct (SubscriptionPlan.validate (JObj fields)) as [p|] eqn:Hp; [|done].
  apply plan_price_checked in Hp as (fields' & v' & [= <-] & Hget' & Hv' & ?).
  rewrite Hget in Hget'. injection Hget' as <-.
  rewrite Hv in Hv'. injection Hv' as ->. lia.
Qed.

(** C8.  POST /plans succeeds only if the payload carries a [price_cents]
    whose integer (the field converts its value as every [int] field does)
    is greater than or equal to 0; a payload whose [price_cents] is a
    negative integer, or converts to one, is rejected with a validation
    error and the store is left as it was. *)
Theorem plan_price_non_negative {I : IntParser} (payload : value) (db : store) :
  (∀ r db',
     POST_plans payload db = (OK r, db') →
     ∃ fields v n,
       payload = JObj fields
       ∧ dict_get "price_cents" fields = Some v
       ∧ int_value v = Some n ∧ (0 ≤ n)%Z)
  ∧ (∀ fields v n,
       payload = JObj fields →
       dict_get "price_cents" fields = Some v →
       int_value v = Some n → (n < 0)%Z →
       ∃ e, POST_plans payload db = (UnprocessableEntity e, db)).
Proof.
  split.
  - intros r db'. unfold POST_plans, post_endpoint.
    destruct (SubscriptionPlan.validate payload) as [p|] eqn:Hv; [|done].
    intros _. apply plan_price_checked in Hv as (fields & v & ? & ? & ? & ?).
    eauto 10.
  - intros fields v n -> Hget Hv Hn.
    apply post_endpoint_invalid, (plan_negative_price_rejected _ _ _ Hget Hv Hn).
Qed.

Lemma plan_price_non_negative_witness :
  (∃ r db',
     POST_plans (I:=decimal_only) (plan_payload 500) (Some fresh) = (OK r, db')
     ∧ ∃ fields v n,
         plan_payload 500 = JObj fields
         ∧ dict_get "price_cents" fields = Some v
         ∧ int_value (I:=decimal_only) v = Some n ∧ (0 ≤ n)%Z)
  ∧ (∃ e, POST_plans (I:=decimal_only) (plan_payload (-1)) (Some fresh)
          = (UnprocessableEntity e, Some fresh))
  ∧ int_value (I:=decimal_only) (JStr "-20") = Some (-20)%Z
  ∧ (∃ e, POST_plans (I:=decimal_only)
            (JObj [("creator_id", JStr "u1"); ("title", JStr "Backstage");
                   ("price_cents", JStr "-20")]) None
          = (UnprocessableEntity e, None)).
Proof.
  split; [|split; [|split; [reflexivity|]]].
  - eexists _, _. split; [vm_compute; reflexivity|].
    eapply (proj1 (plan_price_non_negative (I:=decimal_only) (plan_payload 500)
                     (Some fresh))).
    vm_compute. reflexivity.
  - apply (proj2 (plan_price_non_negative (I:=decimal_only) (plan_payload (-1))
                    (Some fresh))
             [("creator_id", JStr "u1"); ("title", JStr "Backstage");
              ("price_cents", JInt (-1))] (JInt (-1)) (-1)%Z);
      [reflexivity|reflexivity|reflexivity|lia].
  - apply (proj2 (plan_price_non_negative (I:=decimal_only)
                    (JObj [("creator_id", JStr "u1"); ("title", JStr "Backstage");
                           ("price_cents", JStr "-20")]) None)
             [("creator_id", JStr "u1"); ("title", JStr "Backstage");
              ("price_cents", JStr "-20")] (JStr "-20") (-20)%Z);
      [reflexivity|reflexivity|reflexivity|lia].
Defined.

Example negative_price :
  POST_plans (I:=decimal_only) (plan_payload (-1)) (Some fresh)
  = (UnprocessableEntity (ValidationError ["price_cents"] (GreaterThanEqual 0)),
     Some fresh).
Proof. reflexivity. Qed.

Example zero_price :
  (POST_plans (I:=decimal_only) (plan_payload 0) (Some fresh)).1
  = OK {| id := "0" |}.
Proof. vm_compute. reflexivity. Qed.

(** The conversions of lax mode: a numeric string and a boolean are taken
    as a price. *)
Example converted_price :
  (POST_plans (I:=decimal_only)
     (JObj [("creator_id", JStr "u1"); ("title", JStr "Backstage");
            ("price_cents", JStr "500")]) (Some fresh)).1
  = OK {| id := "0" |}
  ∧ SubscriptionPlan.price_cents
      <$> accepted (SubscriptionPlan.validate (I:=decimal_only)
                      (JObj [("creator_id", JStr "u1"); ("title", JStr "t");
                             ("price_cents", JBool true)]))
    = Some 1%Z.
Proof. split; vm_compute; reflexivity. Qed.

(* ===================================================================== *)
(** ** Empty filter parameters (claim C9)                                 *)
(* ===================================================================== *)

(** C9.  An empty-string filter parameter is treated as absent.  GET /posts
    with [tag=""] answers as without [tag], so on a store in working order
    it puts no condition on the tags; GET /messages with [with_user=""]
    answers as without [with_user], so it returns the messages that the
    user sent or received. *)
Theorem empty_string_parameter_is_absent {E : RegexEngine}
    (author_id : option string) (user_id : string) (db : store) :
  GET_posts (Some "") author_id db = GET_posts None author_id db
  ∧ GET_messages user_id (Some "") db = GET_messages user_id None db
  ∧ ∀ d ps ms, holds d ps ms →
      GET_posts (Some "") None (Some d) = OK (stored_post <$> take 100 ps)
      ∧ GET_messages user_id (Some "") (Some d)
        = OK (stored_message <$>
                take 200 (filter (λ im, involves user_id im.2) ms)).
Proof.
  split; [reflexivity|]. split; [reflexivity|].
  intros d ps ms Hd. split.
  - unfold GET_posts, list_posts. simpl nonempty. cbv iota.
    rewrite get_documents_up by (done || apply Hd).
    by rewrite filter_everything, (holds_posts _ _ _ Hd), fmap_take.
  - unfold GET_messages, get_messages. simpl nonempty. cbv iota.
    rewrite (find_messages _ _ _ _ _ (involves user_id) Hd); [done..|].
    intros im. apply involves_query_matches.
Qed.

Lemma empty_string_parameter_is_absent_witness :
  holds two_posts_db two_posts []
  ∧ GET_posts (E:=no_extensions) (Some "") None (Some two_posts_db)
    = OK (stored_post <$> take 100 two_posts)
  ∧ holds chat_db [] chat
  ∧ GET_messages (E:=no_extensions) "ann" (Some "") (Some chat_db)
    = OK (stored_message <$> take 200 (filter (λ im, involves "ann" im.2) chat)).
Proof.
  pose proof (empty_string_parameter_is_absent (E:=no_extensions) None "ann" None)
    as (_ & _ & H).
  split; [exact two_posts_held|]. split; [exact (proj1 (H _ _ _ two_posts_held))|].
  split; [exact chat_held|]. exact (proj2 (H _ _ _ chat_held)).
Defined.

(* ===================================================================== *)
(** ** Payments (claim C10)                                               *)
(* ===================================================================== *)

(** C10.  [amount_cents] is an integer without bounds: in every payment
    payload that the schema accepts, the amount can be replaced by any
    integer, negative and zero included, and POST /payments on a store in
    working order accepts the payload and stores a payment of that
    amount. *)
Theorem payment_amount_unconstrained {I : IntParser} fields p (m : Z) d :
  Payment.validate (JObj fields) = Valid p →
  db_fault d = None →
  let payload := JObj (dict_set "amount_cents" (JInt m) fields) in
  let p' := Payment.Build (Payment.user_id p) m (Payment.currency p)
              (Payment.purpose p) (Payment.provider p) (Payment.status p)
              (Payment.metadata p) in
  let new_id := object_id (db_generated d) in
  ∃ d',
    POST_payments payload (Some d) = (OK {| id := new_id |}, Some d')
    ∧ collection "payment" d'
      = collection "payment" d ++ [stored new_id (Payment.dump p')]
    ∧ dict_get "amount_cents" (stored new_id (Payment.dump p')) = Some (JInt m).
Proof.
  intros H Hup payload p' new_id. subst payload p' new_id.
  exists (inserted "payment"
            (Payment.dump
               (Payment.Build (Payment.user_id p) m (Payment.currency p)
                  (Payment.purpose p) (Payment.provider p) (Payment.status p)
                  (Payment.metadata p))) d).
  split; [|split; [apply collection_inserted|reflexivity]].
  apply (post_endpoint_up Payment.validate Payment.dump "payment"); [|done].
  unfold Payment.validate in *. simpl as_object in *.
  next_field H fields' Hobj. injection Hobj as <-.
  next_field H user Hu. next_field H amount Ha. next_field H currency Hc.
  next_field H purpose Hpu. next_field H provider Hpr. next_field H status Hs.
  next_field H metadata Hm. injection H as <-. simpl.
  rewrite required_set_eq, required_set_ne, !defaulted_set_ne by done.
  by rewrite Hu, Hc, Hpu, Hpr, Hs, Hm.
Qed.

Lemma payment_amount_unconstrained_witness :
  Payment.validate (I:=decimal_only) (JObj (tip_fields 250)) = Valid (tip 250)
  ∧ (∃ d',
       POST_payments (I:=decimal_only) (JObj (tip_fields (-250))) (Some fresh)
       = (OK {| id := "0" |}, Some d')
       ∧ collection "payment" d' = [stored "0" (Payment.dump (tip (-250)))]
       ∧ dict_get "amount_cents" (stored "0" (Payment.dump (tip (-250))))
         = Some (JInt (-250)))
  ∧ (∃ d',
       POST_payments (I:=decimal_only) (JObj (tip_fields 0)) (Some fresh)
       = (OK {| id := "0" |}, Some d')
       ∧ collection "payment" d' = [stored "0" (Payment.dump (tip 0))]
       ∧ dict_get "amount_cents" (stored "0" (Payment.dump (tip 0)))
         = Some (JInt 0)).
Proof.
  split; [reflexivity|]. split.
  - exact (payment_amount_unconstrained (I:=decimal_only) (tip_fields 250)
             (tip 250) (-250) fresh eq_refl eq_refl).
  - exact (payment_amount_unconstrained (I:=decimal_only) (tip_fields 250)
             (tip 250) 0 fresh eq_refl eq_refl).
Defined.

(* ===================================================================== *)
(** ** Serialized records validate again                                  *)
(* ===================================================================== *)

Lemma at_field_valid {A : Type} k (m : validation A) a :
  at_field k m = Valid a → m = Valid a.
Proof. destruct m; [done|discriminate]. Qed.

Lemma required_valid {A : Type} (d : dict) k (t : ftype A) a :
  required d k t = Valid a → ∃ v, dict_get k d = Some v ∧ t v = Valid a.
Proof.
  unfold required. destruct (dict_get k d) as [v|]; [|done].
  intros H%at_field_valid. eauto.
Qed.

Lemma defaulted_valid {A : Type} (d : dict) k (t : ftype A) dflt a :
  defaulted d k t dflt = Valid a →
  (dict_get k d = None ∧ a = dflt) ∨ ∃ v, dict_get k d = Some v ∧ t v = Valid a.
Proof.
  unfold defaulted. destruct (dict_get k d) as [v|].
  - intros H%at_field_valid. eauto.
  - intros [= <-]. auto.
Qed.

#[global] Instance str_stable : Stable t_str JStr.
Proof. by intros [] a H. Qed.

#[global] Instance int_stable {I : IntParser} : Stable t_int JInt.
Proof. by intros v a H. Qed.

#[global] Instance bool_stable : Stable t_bool JBool.
Proof. by intros v a H. Qed.

#[global] Instance int_ge_stable {I : IntParser} lo : Stable (t_int_ge lo) JInt.
Proof.
  intros v a H. unfold t_int_ge in *.
  apply bind_valid in H as (n & _ & H).
  destruct (lo <=? n)%Z eqn:Hn; [|done]. injection H as <-.
  change (t_int (JInt n)) with (Valid n). simpl. by rewrite Hn.
Qed.

#[global] Instance literal_stable allowed : Stable (t_literal allowed) JStr.
Proof.
  intros v a H. destruct v as [| | |s| |]; try done. simpl in *.
  destruct (existsb (String.eqb s) allowed) eqn:Hs; [|done].
  injection H as <-. by rewrite Hs.
Qed.

#[global] Instance http_url_stable {U : UrlParser} : Stable t_http_url JStr.
Proof.
  intros v a H. destruct v as [| | |s| |]; try done. simpl in *.
  destruct (http_url_ok s) eqn:Hs; [|done].
  injection H as <-. by rewrite Hs.
Qed.

#[global] Instance str_non_null : NonNull JStr.
Proof. by intros a. Qed.

#[global] Instance int_non_null : NonNull JInt.
Proof. by intros a. Qed.

#[global] Instance list_non_null {A : Type} (f : A → value) :
  NonNull (λ l, JList (f <$> l)).
Proof. by intros a. Qed.

#[global] Instance strs_non_null : NonNull dump_strs.
Proof. by intros a. Qed.

#[global] Instance str_dict_non_null : NonNull dump_str_dict.
Proof. by intros a. Qed.

#[global] Instance optional_stable {A : Type} (t : ftype A) f
    `{!Stable t f, !NonNull f} :
  Stable (t_optional t) (dump_opt f).
Proof.
  intros v o H. destruct o as [a|]; simpl; [|done].
  assert (t v = Valid a) as Ha.
  { unfold t_optional in H. destruct v; try done;
      by destruct (t _); simplify_eq/=. }
  apply stable in Ha. unfold t_optional.
  pose proof (non_null a). destruct (f a); try done; by rewrite Ha.
Qed.

Lemma validate_items_stable {A : Type} (t : ftype A) f `{!Stable t f}
    (xs : list value) (l : list A) i j :
  validate_items t i xs = Valid l → validate_items t j (f <$> l) = Valid l.
Proof.
  revert l i j. induction xs as [|x xs IH]; intros l i j; simpl.
  - by intros [= <-].
  - intros H. next_field H a Ha. next_field H rest Hrest. injection H as <-.
    apply at_field_valid, stable in Ha. csimpl. rewrite Ha. simpl.
    by rewrite (IH _ _ (S j) Hrest).
Qed.

#[global] Instance list_stable {A : Type} (t : ftype A) f `{!Stable t f} :
  Stable (t_list t) (λ l, JList (f <$> l)).
Proof.
  intros v l H. destruct v as [| | | |xs|]; try done.
  apply (validate_items_stable t f xs l 0 0 H).
Qed.

#[global] Instance strs_stable : Stable (t_list t_str) dump_strs.
Proof. apply list_stable. apply _. Qed.

Lemma validate_entries_stable (kvs : dict) (l : list (string * string)) :
  validate_entries kvs = Valid l →
  validate_entries ((λ kv, (kv.1, JStr kv.2)) <$> l) = Valid l.
Proof.
  revert l. induction kvs as [|[k v] kvs IH]; intros l; simpl.
  - by intros [= <-].
  - intros H. next_field H s Hs. next_field H rest Hrest. injection H as <-.
    csimpl. by rewrite (IH _ Hrest).
Qed.

#[global] Instance str_dict_stable : Stable t_str_dict dump_str_dict.
Proof.
  intros v l H. destruct v as [| | | | |kvs]; try done.
  apply (validate_entries_stable kvs l H).
Qed.

(** A field that was accepted is accepted again from the serialized
    record. *)
Lemma required_stable {A : Type} (t : ftype A) f `{!Stable t f}
    (d d' : dict) k a :
  required d k t = Valid a → dict_get k d' = Some (f a) →
  required d' k t = Valid a.
Proof.
  intros (v & _ & Hv)%required_valid Hget. unfold required.
  by rewrite Hget, (stable _ _ Hv).
Qed.

Lemma defaulted_stable {A : Type} (t : ftype A) f `{!Stable t f}
    (d d' : dict) k dflt a :
  t (f dflt) = Valid dflt →
  defaulted d k t dflt = Valid a → dict_get k d' = Some (f a) →
  defaulted d' k t dflt = Valid a.
Proof.
  intros Hdflt [[_ ->]|(v & _ & Hv)]%defaulted_valid Hget; unfold defaulted;
    rewrite Hget; [by rewrite Hdflt|by rewrite (stable _ _ Hv)].
Qed.

(** Take a successful validation apart, field by field, and put it
    together again on the serialized record. *)
Ltac fields_of H :=
  repeat (let x := fresh "x" in let Hx := fresh "Hx" in
          apply bind_valid in H as (x & Hx & H)).

Ltac accept_again :=
  repeat
    (cbn [mbind validation_bind as_object];
     match goal with
     | Hx : required _ ?k ?t = Valid ?a |- context [required ?d' ?k ?t] =>
         rewrite (required_stable t _ _ d' k a Hx) by reflexivity; clear Hx
     | Hx : defaulted _ ?k ?t ?dflt = Valid ?a
       |- context [defaulted ?d' ?k ?t ?dflt] =>
         rewrite (defaulted_stable t _ _ d' k dflt a)
           by first [exact Hx | reflexivity];
         clear Hx
     end);
  cbn [mbind validation_bind as_object].

#[global] Instance drm_policy_stable {I : IntParser} :
  Stable DRMPolicy.validate DRMPolicy.dump.
Proof.
  intros v a H. unfold DRMPolicy.validate in *.
  fields_of H. injection H as <-. unfold DRMPolicy.dump.
  accept_again. reflexivity.
Qed.

#[global] Instance drm_policy_non_null : NonNull DRMPolicy.dump.
Proof. by intros a. Qed.

#[global] Instance profile_settings_stable {U : UrlParser} :
  Stable ProfileSettings.validate ProfileSettings.dump.
Proof.
  intros v a H. unfold ProfileSettings.validate in *.
  fields_of H. injection H as <-. unfold ProfileSettings.dump.
  accept_again. reflexivity.
Qed.

#[global] Instance profile_settings_non_null : NonNull ProfileSettings.dump.
Proof. by intros a. Qed.

Ltac model_stable validate dump :=
  let H := fresh "H" in
  intros ? ? H; unfold validate in *; fields_of H; injection H as <-;
  unfold dump, stored; accept_again; reflexivity.

Section StoredRecords.
Context {U : UrlParser} {I : IntParser} (i : string).

Lemma user_stable : Stable User.validate (λ x, JObj (stored i (User.dump x))).
Proof. model_stable @User.validate User.dump. Qed.

Lemma post_stable : Stable Post.validate (λ x, JObj (stored i (Post.dump x))).
Proof. model_stable @Post.validate Post.dump. Qed.

Lemma comment_stable :
  Stable Comment.validate (λ x, JObj (stored i (Comment.dump x))).
Proof. model_stable Comment.validate Comment.dump. Qed.

Lemma like_stable : Stable Like.validate (λ x, JObj (stored i (Like.dump x))).
Proof. model_stable Like.validate Like.dump. Qed.

Lemma message_stable :
  Stable Message.validate (λ x, JObj (stored i (Message.dump x))).
Proof. model_stable Message.validate Message.dump. Qed.

Lemma plan_stable :
  Stable SubscriptionPlan.validate
    (λ x, JObj (stored i (SubscriptionPlan.dump x))).
Proof. model_stable @SubscriptionPlan.validate SubscriptionPlan.dump. Qed.

Lemma subscription_stable :
  Stable Subscription.validate (λ x, JObj (stored i (Subscription.dump x))).
Proof. model_stable Subscription.validate Subscription.dump. Qed.

Lemma payment_stable :
  Stable Payment.validate (λ x, JObj (stored i (Payment.dump x))).
Proof. model_stable @Payment.validate Payment.dump. Qed.

Lemma notification_stable :
  Stable Notification.validate (λ x, JObj (stored i (Notification.dump x))).
Proof. model_stable Notification.validate Notification.dump. Qed.

Lemma stream_stable :
  Stable Stream.validate (λ x, JObj (stored i (Stream.dump x))).
Proof. model_stable Stream.validate Stream.dump. Qed.

Lemma audio_room_stable :
  Stable AudioRoom.validate (λ x, JObj (stored i (AudioRoom.dump x))).
Proof. model_stable AudioRoom.validate AudioRoom.dump. Qed.

Lemma analytics_event_stable :
  Stable AnalyticsEvent.validate (λ x, JObj (stored i (AnalyticsEvent.dump x))).
Proof. model_stable AnalyticsEvent.validate AnalyticsEvent.dump. Qed.

End StoredRecords.

Lemma accepted_stable {A : Type} (t : ftype A) (dump : A → dict) i
    (payload : value) (data : dict) :
  Stable t (λ x, JObj (stored i (dump x))) →
  dump <$> accepted (t payload) = Some data →
  dump <$> accepted (t (JObj (stored i data))) = Some data.
Proof.
  intros Ht. destruct (t payload) as [x|] eqn:Hx; [|done].
  intros [= <-]. by rewrite (Ht _ _ Hx).
Qed.

Lemma normalized_stable {U : UrlParser} {I : IntParser} r payload data i :
  normalized r payload = Some data →
  normalized r (JObj (stored i data)) = Some data.
Proof.
  destruct r; simpl; apply accepted_stable.
  - apply user_stable.
  - apply post_stable.
  - apply comment_stable.
  - apply like_stable.
  - apply message_stable.
  - apply plan_stable.
  - apply subscription_stable.
  - apply payment_stable.
  - apply notification_stable.
  - apply stream_stable.
  - apply audio_room_stable.
  - apply analytics_event_stable.
Qed.

(** X1.  For every create endpoint, the document that the store holds after
    a successful request (the validated record with its defaults, and the
    generated [_id]) is itself a payload that the schema of the endpoint
    accepts, and it validates to the same record: validation changes
    nothing in what it has produced. *)
Theorem stored_document_validates_again {U : UrlParser} {I : IntParser}
    (r : create_route) (payload : value) (data : dict) (i : string) :
  normalized r payload = Some data →
  normalized r (JObj (stored i data)) = Some data.
Proof. apply normalized_stable. Qed.

Lemma stored_document_validates_again_witness :
  normalized (U:=scheme_only) (I:=decimal_only) Posts drm_post_payload
  = Some (Post.dump
            (Post.Build "u1" "short_video" None
               (Some "https://cdn.example.org/v.mp4") None [] true
               (Some "gold") (Some (DRMPolicy.Build true None false))
               "subscribers"))
  ∧ normalized (U:=scheme_only) (I:=decimal_only) Posts
      (JObj (stored "7"
               (Post.dump
                  (Post.Build "u1" "short_video" None
                     (Some "https://cdn.example.org/v.mp4") None [] true
                     (Some "gold") (Some (DRMPolicy.Build true None false))
                     "subscribers"))))
    = Some (Post.dump
              (Post.Build "u1" "short_video" None
                 (Some "https://cdn.example.org/v.mp4") None [] true
                 (Some "gold") (Some (DRMPolicy.Build true None false))
                 "subscribers")).
Proof.
  split; [reflexivity|].
  apply (stored_document_validates_again (U:=scheme_only) (I:=decimal_only) Posts
           drm_post_payload _ "7").
  reflexivity.
Defined.

(** X2.  The two models that no handler uses behave the same way: a
    [Group] or a [SearchIndex] that validation produced, serialized, is
    accepted again and gives the same record. *)
Theorem unrouted_models_validate_again (payload : value) :
  (∀ g, Group.validate payload = Valid g →
        Group.validate (JObj (Group.dump g)) = Valid g)
  ∧ (∀ s, SearchIndex.validate payload = Valid s →
          SearchIndex.validate (JObj (SearchIndex.dump s)) = Valid s).
Proof.
  split.
  - revert payload. model_stable Group.validate Group.dump.
  - revert payload. model_stable SearchIndex.validate SearchIndex.dump.
Qed.

Lemma unrouted_models_validate_again_witness :
  Group.validate
    (JObj (Group.dump (Group.Build "u1" "crew" None ["u2"; "u3"])))
  = Valid (Group.Build "u1" "crew" None ["u2"; "u3"])
  ∧ SearchIndex.validate
      (JObj (SearchIndex.dump (SearchIndex.Build "post" "0" ["hello"; "world"])))
    = Valid (SearchIndex.Build "post" "0" ["hello"; "world"]).
Proof.
  split.
  - apply (proj1 (unrouted_models_validate_again
                    (JObj [("owner_id", JStr "u1"); ("name", JStr "crew");
                           ("members", JList [JStr "u2"; JStr "u3"])]))).
    reflexivity.
  - apply (proj2 (unrouted_models_validate_again
                    (JObj [("doc_type", JStr "post"); ("ref_id", JStr "0");
                           ("tokens", JList [JStr "hello"; JStr "world"])]))).
    reflexivity.
Defined.

(* ===================================================================== *)
(** ** What a create request does to the store                            *)
(* ===================================================================== *)

Lemma post_endpoint_outcomes {T : Type} (validate : ftype T) (dump : T → dict)
    (coll : string) payload db :
  let request :=
    post_endpoint validate
      (λ x, new_id ← insert_one coll (dump x); mret {| id := new_id |})
      payload db in
  match dump <$> accepted (validate payload), db with
  | None, _ => ∃ e, request = (UnprocessableEntity e, db)
  | Some _, None => request = (InternalServerError not_available, None)
  | Some data, Some d =>
      match db_fault d with
      | Some e => request = (InternalServerError e, Some d)
      | None =>
          request = (OK {| id := object_id (db_generated d) |},
                     Some (inserted coll data d))
      end
  end.
Proof.
  simpl. unfold post_endpoint.
  destruct (validate payload) as [x|e]; simpl; [|by eauto].
  unfold mbind, action_bind, insert_one, create_document.
  destruct db as [d|]; [|done]. by destruct (db_fault d).
Qed.

Lemma create_cases {U : UrlParser} {I : IntParser} (r : create_route) (payload : value)
    (db : store) :
  match normalized r payload, db with
  | None, _ => ∃ e, create r payload db = (UnprocessableEntity e, db)
  | Some _, None =>
      create r payload db = (InternalServerError not_available, None)
  | Some data, Some d =>
      match db_fault d with
      | Some e => create r payload db = (InternalServerError e, Some d)
      | None =>
          create r payload db
          = (OK {| id := object_id (db_generated d) |},
             Some (inserted (route_collection r) data d))
      end
  end.
Proof. destruct r; apply post_endpoint_outcomes. Qed.

Lemma normalized_has_no_id {U : UrlParser} {I : IntParser} r payload data :
  normalized r payload = Some data → dict_get "_id" data = None.
Proof.
  destruct r; simpl;
    (match goal with |- context [accepted ?m] => destruct m end);
    simpl; intros [= <-]; reflexivity.
Qed.

Lemma dict_get_stored_id i data :
  dict_get "_id" data = None → dict_get "_id" (stored i data) = Some (JStr i).
Proof.
  unfold stored. induction data as [|[k v] data IH]; [done|].
  cbn [app dict_get]. destruct (String.eqb "_id" k); [intros [=]|exact IH].
Qed.

(** X4.  On a store in working order, an accepted payload adds exactly one
    document: the validated record with the answered identifier as its
    [_id], at the end of the collection that the handler names ([user],
    [post], [comment], [like], [message], [subscriptionplan],
    [subscription], [payment], [notification], [stream], [audioroom] or
    [analyticsevent]).  Every other collection is as it was, and the store
    stays in working order. *)
Theorem create_adds_one_document {U : UrlParser} {I : IntParser} (r : create_route)
    (payload : value) (data : dict) (d : Database) :
  db_fault d = None →
  normalized r payload = Some data →
  ∃ i d',
    create r payload (Some d) = (OK {| id := i |}, Some d')
    ∧ collection (route_collection r) d'
      = collection (route_collection r) d ++ [stored i data]
    ∧ dict_get "_id" (stored i data) = Some (JStr i)
    ∧ (∀ c, c ≠ route_collection r → collection c d' = collection c d)
    ∧ db_fault d' = None.
Proof.
  intros Hup Hdata. pose proof (create_cases r payload (Some d)) as H.
  rewrite Hdata, Hup in H.
  exists (object_id (db_generated d)), (inserted (route_collection r) data d).
  split; [exact H|]. split; [apply collection_inserted|].
  split; [eapply dict_get_stored_id, normalized_has_no_id, Hdata|].
  split; [|done]. intros c Hc. by apply collection_inserted_ne.
Qed.

Lemma create_adds_one_document_witness :
  db_fault chat_db = None
  ∧ normalized (U:=scheme_only) (I:=decimal_only) AudioRooms
      (JObj [("host_id", JStr "ann"); ("topic", JStr "Q&A")])
    = Some (AudioRoom.dump (AudioRoom.Build "ann" "Q&A" "scheduled" []))
  ∧ ∃ i d',
      create (U:=scheme_only) (I:=decimal_only) AudioRooms
        (JObj [("host_id", JStr "ann"); ("topic", JStr "Q&A")]) (Some chat_db)
      = (OK {| id := i |}, Some d')
      ∧ collection "audioroom" d'
        = collection "audioroom" chat_db
          ++ [stored i (AudioRoom.dump (AudioRoom.Build "ann" "Q&A" "scheduled" []))]
      ∧ dict_get "_id"
          (stored i (AudioRoom.dump (AudioRoom.Build "ann" "Q&A" "scheduled" [])))
        = Some (JStr i)
      ∧ (∀ c, c ≠ "audioroom" → collection c d' = collection c chat_db)
      ∧ db_fault d' = None.
Proof.
  split; [reflexivity|]. split; [reflexivity|].
  exact (create_adds_one_document (U:=scheme_only) (I:=decimal_only) AudioRooms
           (JObj [("host_id", JStr "ann"); ("topic", JStr "Q&A")])
           (AudioRoom.dump (AudioRoom.Build "ann" "Q&A" "scheduled" []))
           chat_db eq_refl eq_refl).
Defined.

Lemma create_extends {U : UrlParser} {I : IntParser} r payload d :
  ∃ d', (create r payload (Some d)).2 = Some d'
        ∧ db_fault d' = db_fault d
        ∧ ∀ c, collection c d `prefix_of` collection c d'.
Proof.
  pose proof (create_cases r payload (Some d)) as H.
  destruct (normalized r payload) as [data|].
  - destruct (db_fault d) as [e|] eqn:Hfault.
    + rewrite H. by exists d.
    + rewrite H. exists (inserted (route_collection r) data d).
      split; [done|]. split; [done|]. intros c.
      destruct (decide (c = route_collection r)) as [->|Hc].
      * rewrite collection_inserted. by apply prefix_app_r.
      * by rewrite collection_inserted_ne.
  - destruct H as [e ->]. by exists d.
Qed.

(** X5.  The service only ever appends.  After any sequence of create
    requests, valid or not, on a configured store, every collection still
    begins with the documents it held before, in the same order: no
    request removes, reorders or rewrites a stored document. *)
Theorem run_only_appends {U : UrlParser} {I : IntParser}
    (requests : list (create_route * value)) (d : Database) :
  ∃ d', run requests (Some d) = Some d'
        ∧ db_fault d' = db_fault d
        ∧ ∀ c, collection c d `prefix_of` collection c d'.
Proof.
  revert d. induction requests as [|[r payload] requests IH]; intros d.
  - by exists d.
  - destruct (create_extends r payload d) as (d1 & Hd1 & Hf1 & Hp1).
    destruct (IH d1) as (d' & Hd' & Hf' & Hp').
    exists d'. unfold run in *. simpl. rewrite Hd1.
    split; [done|]. split; [congruence|].
    intros c. etrans; [apply Hp1|apply Hp'].
Qed.

Example run_two_posts :
  run (U:=scheme_only) (I:=decimal_only)
    [(Posts, hello_payload); (Posts, bogus_payload); (Posts, diary_payload)]
    (Some fresh)
  = Some two_posts_db.
Proof. vm_compute. reflexivity. Qed.

(* ===================================================================== *)
(** ** What the store of a running service holds                          *)
(* ===================================================================== *)

Lemma route_collection_inj r r' :
  route_collection r = route_collection r' → r = r'.
Proof. destruct r, r'; simpl; intros [=]; reflexivity. Qed.

Lemma create_step {U : UrlParser} {I : IntParser} r payload d answer d' :
  db_fault d = None →
  create r payload (Some d) = (answer, Some d') →
  d' = d
  ∨ ∃ data, normalized r payload = Some data
            ∧ d' = inserted (route_collection r) data d.
Proof.
  intros Hup Hstep. pose proof (create_cases r payload (Some d)) as H.
  destruct (normalized r payload) as [data|].
  - rewrite Hup, Hstep in H. injection H as _ ->. eauto.
  - destruct H as [e H]. rewrite Hstep in H. injection H as _ ->. auto.
Qed.

Lemma reachable_up {U : UrlParser} {I : IntParser} d : reachable d → db_fault d = None.
Proof. intros (ps & ms & Hd)%reachable_holds. apply Hd. Qed.

Lemma reachable_normalized {U : UrlParser} {I : IntParser} d r :
  reachable d →
  Forall (λ doc, ∃ payload i data,
            normalized r payload = Some data ∧ doc = stored i data)
    (collection (route_collection r) d).
Proof.
  induction 1 as [name|r0 payload d answer d' Hd IH Hstep]; [constructor|].
  destruct (create_step _ _ _ _ _ (reachable_up _ Hd) Hstep)
    as [->|(data & Hdata & ->)]; [done|].
  destruct (decide (route_collection r = route_collection r0)) as [Heq|Hne].
  - apply route_collection_inj in Heq as ->.
    rewrite collection_inserted. apply Forall_app. split; [done|].
    constructor; [eauto|constructor].
  - by rewrite collection_inserted_ne.
Qed.

(** X6.  In the store of a running service (one that started empty and has
    served create requests only), every document of every collection
    satisfies the schema of the endpoint that writes to the collection: it
    is a validated record with an [_id], and the schema accepts it again
    as it is.  Nothing unvalidated reaches the store. *)
Theorem stored_documents_satisfy_schema {U : UrlParser} {I : IntParser} (d : Database)
    (r : create_route) (doc : dict) :
  reachable d →
  doc ∈ collection (route_collection r) d →
  ∃ i data, doc = stored i data ∧ normalized r (JObj doc) = Some data.
Proof.
  intros Hd Hdoc.
  pose proof (reachable_normalized d r Hd) as Hall.
  rewrite Forall_forall in Hall.
  destruct (Hall doc Hdoc) as (payload & i & data & Hdata & ->).
  exists i, data. split; [done|]. by eapply normalized_stable.
Qed.

Lemma two_posts_reachable : reachable (U:=scheme_only) (I:=decimal_only) two_posts_db.
Proof.
  eapply (reachable_create Posts diary_payload);
    [eapply (reachable_create Posts hello_payload);
       [apply (reachable_empty "creators")|vm_compute; reflexivity]
    |vm_compute; reflexivity].
Defined.

Lemma stored_documents_satisfy_schema_witness :
  reachable (U:=scheme_only) (I:=decimal_only) two_posts_db
  ∧ stored_post ("1", diary_post) ∈ collection "post" two_posts_db
  ∧ ∃ i data,
      stored_post ("1", diary_post) = stored i data
      ∧ normalized (U:=scheme_only) (I:=decimal_only) Posts (JObj (stored_post ("1", diary_post)))
        = Some data.
Proof.
  assert (stored_post ("1", diary_post) ∈ collection "post" two_posts_db) as Hin.
  { apply list_elem_of_lookup. exists 1. reflexivity. }
  split; [exact two_posts_reachable|]. split; [exact Hin|].
  exact (stored_documents_satisfy_schema (U:=scheme_only) (I:=decimal_only) two_posts_db Posts
           (stored_post ("1", diary_post)) two_posts_reachable Hin).
Defined.

Lemma literal_valid allowed v s : t_literal allowed v = Valid s → s ∈ allowed.
Proof.
  destruct v as [| | |s'| |]; try done. simpl.
  destruct (existsb (String.eqb s') allowed) eqn:Hs; [|done].
  intros [= <-]. by apply existsb_eqb_elem_of.
Qed.

Lemma optional_url_valid {U : UrlParser} {I : IntParser} v o u :
  t_optional t_http_url v = Valid o → o = Some u → http_url_ok u = true.
Proof.
  intros H ->. destruct v as [| | |s| |]; try done. simpl in H.
  destruct (http_url_ok s) eqn:Hs; [|done]. by injection H as <-.
Qed.

Lemma post_validated {U : UrlParser} {I : IntParser} payload p :
  Post.validate payload = Valid p → well_formed_post p.
Proof.
  intros H. unfold Post.validate in H.
  next_field H d Hd. next_field H author Hauthor. next_field H ctype Hctype.
  next_field H text Htext. next_field H media Hmedia.
  next_field H thumbnail Hthumbnail. next_field H tags Htags.
  next_field H premium Hpremium. next_field H tier Htier. next_field H drm Hdrm.
  next_field H visibility Hvisibility. injection H as <-.
  repeat split; simpl.
  - apply required_valid in Hctype as (v & _ & Hv). by eapply literal_valid.
  - apply defaulted_valid in Hvisibility as [[_ ->]|(v & _ & Hv)].
    + unfold privacy_levels. rewrite !elem_of_cons. auto.
    + by eapply literal_valid.
  - intros u Hu.
    apply defaulted_valid in Hmedia as [[_ ->]|(v & _ & Hv)]; [done|].
    by eapply optional_url_valid.
  - intros u Hu.
    apply defaulted_valid in Hthumbnail as [[_ ->]|(v & _ & Hv)]; [done|].
    by eapply optional_url_valid.
Qed.

(** X7.  The post collection of a running service never holds a post
    whose [content_type] is outside the five allowed values or whose
    [visibility] is outside the four allowed ones, and every media or
    thumbnail URL in it passed the URL parser. *)
Theorem stored_posts_well_formed {U : UrlParser} {I : IntParser} (d : Database) (doc : dict) :
  reachable d →
  doc ∈ collection "post" d →
  ∃ i p, doc = stored i (Post.dump p) ∧ well_formed_post p.
Proof.
  intros Hd Hdoc.
  pose proof (reachable_normalized d Posts Hd) as Hall.
  rewrite Forall_forall in Hall.
  destruct (Hall doc Hdoc) as (payload & i & data & Hdata & ->).
  simpl in Hdata. destruct (Post.validate payload) as [p|] eqn:Hp; [|done].
  injection Hdata as <-. exists i, p. split; [done|]. by eapply post_validated.
Qed.

Lemma stored_posts_well_formed_witness :
  reachable (U:=scheme_only) (I:=decimal_only) two_posts_db
  ∧ stored_post ("0", hello_post) ∈ collection "post" two_posts_db
  ∧ ∃ i p, stored_post ("0", hello_post) = stored i (Post.dump p)
           ∧ well_formed_post (U:=scheme_only) p.
Proof.
  assert (stored_post ("0", hello_post) ∈ collection "post" two_posts_db) as Hin.
  { apply list_elem_of_lookup. exists 0. reflexivity. }
  split; [exact two_posts_reachable|]. split; [exact Hin|].
  exact (stored_posts_well_formed (U:=scheme_only) (I:=decimal_only) two_posts_db
           (stored_post ("0", hello_post)) two_posts_reachable Hin).
Defined.

(** X8.  The plan collection of a running service never holds a plan with
    a negative price: every stored plan has an integer [price_cents] that
    is at least 0, and a [tier] among bronze, silver, gold and platinum. *)
Theorem stored_plans_priced {U : UrlParser} {I : IntParser} (d : Database) (doc : dict) :
  reachable d →
  doc ∈ collection "subscriptionplan" d →
  ∃ n tier,
    dict_get "price_cents" doc = Some (JInt n) ∧ (0 ≤ n)%Z
    ∧ dict_get "tier" doc = Some (JStr tier)
    ∧ tier ∈ ["bronze"; "silver"; "gold"; "platinum"].
Proof.
  intros Hd Hdoc.
  pose proof (reachable_normalized d Plans Hd) as Hall.
  rewrite Forall_forall in Hall.
  destruct (Hall doc Hdoc) as (payload & i & data & Hdata & ->).
  simpl in Hdata.
  destruct (SubscriptionPlan.validate payload) as [p|] eqn:Hp; [|done].
  injection Hdata as <-.
  exists (SubscriptionPlan.price_cents p), (SubscriptionPlan.tier p).
  split; [reflexivity|].
  split; [by apply plan_price_checked in Hp as (? & ? & _ & _ & _ & ?)|].
  split; [reflexivity|].
  unfold SubscriptionPlan.validate in Hp.
  next_field Hp fields Hfields. next_field Hp creator Hcreator.
  next_field Hp title Htitle. next_field Hp price Hprice.
  next_field Hp currency Hcurrency. next_field Hp benefits Hbenefits.
  next_field Hp tier Htier. injection Hp as <-.
  simpl. apply defaulted_valid in Htier as [[_ ->]|(v & _ & Hv)].
  - rewrite !elem_of_cons. auto.
  - by eapply literal_valid.
Qed.

Lemma plans_reachable : reachable (U:=scheme_only) (I:=decimal_only) plans_db.
Proof.
  eapply (reachable_create Plans (plan_payload 500));
    [apply (reachable_empty "creators")|vm_compute; reflexivity].
Defined.

Lemma stored_plans_priced_witness :
  reachable (U:=scheme_only) (I:=decimal_only) plans_db
  ∧ stored "0" (SubscriptionPlan.dump backstage)
    ∈ collection "subscriptionplan" plans_db
  ∧ ∃ n tier,
      dict_get "price_cents" (stored "0" (SubscriptionPlan.dump backstage))
      = Some (JInt n) ∧ (0 ≤ n)%Z
      ∧ dict_get "tier" (stored "0" (SubscriptionPlan.dump backstage))
        = Some (JStr tier)
      ∧ tier ∈ ["bronze"; "silver"; "gold"; "platinum"].
Proof.
  assert (stored "0" (SubscriptionPlan.dump backstage)
          ∈ collection "subscriptionplan" plans_db) as Hin.
  { apply list_elem_of_lookup. exists 0. reflexivity. }
  split; [exact plans_reachable|]. split; [exact Hin|].
  exact (stored_plans_priced (U:=scheme_only) (I:=decimal_only) plans_db _ plans_reachable Hin).
Defined.

(* ===================================================================== *)
(** ** More on the reads                                                  *)
(* ===================================================================== *)

Lemma list_filter_sublist {A : Type} (f : A → bool) (l : list A) :
  List.filter f l `sublist_of` l.
Proof.
  induction l as [|x l IH]; simpl; [done|].
  destruct (f x); [by apply sublist_skip|by apply sublist_cons].
Qed.

Lemma get_documents_capped {E : RegexEngine} coll q n db :
  capped n coll db (respond (get_documents coll q n db)).
Proof.
  unfold get_documents. destruct db as [d|]; [|done].
  destruct (db_fault d); [done|]. destruct (query_compiles q); [|done].
  simpl. exists d. split; [done|]. split.
  - rewrite length_take. lia.
  - etrans; [apply sublist_take|apply list_filter_sublist].
Qed.

(** X9.  Whatever the store holds and whatever the parameters are, a read
    endpoint that answers 200 answers with documents of its own collection
    only, in the order of the store, and with no more of them than its
    cap: 50 users, 100 posts, 200 messages, 100 notifications, 50 search
    results and 20 recommendations. *)
Theorem reads_are_capped {E : RegexEngine} (db : store)
    (tag author_id with_user viewer : option string) (user_id : string)
    (payload : value) :
  capped 50 "user" db (GET_users db)
  ∧ capped 100 "post" db (GET_posts tag author_id db)
  ∧ capped 200 "message" db (GET_messages user_id with_user db)
  ∧ capped 100 "notification" db (GET_notifications user_id db)
  ∧ capped 50 "post" db (POST_search payload db)
  ∧ capped 20 "post" db (GET_recommendations viewer db).
Proof.
  repeat split; try apply get_documents_capped.
  unfold POST_search. destruct (SearchQuery.validate payload); [|done].
  apply get_documents_capped.
Qed.

#[global] Instance for_user_dec u n : Decision (for_user u n).
Proof. unfold for_user. apply _. Defined.

#[global] Instance has_text_or_empty_tag_dec p :
  Decision (has_text_or_empty_tag p).
Proof. unfold has_text_or_empty_tag. apply _. Defined.

Lemma notification_user_id n :
  strings_of (dict_get "user_id" (stored_notification n))
  = [Notification.user_id n.2].
Proof. reflexivity. Qed.

(** X10.  GET /notifications returns the first 100 notifications, in the
    order of the store, whose [user_id] equals the parameter, on a store in
    working order.  The parameter is compared as it is: an empty
    [user_id] is not treated as absent, it selects the notifications whose
    [user_id] is the empty string. *)
Theorem list_notifications_by_user {E : RegexEngine} (d : Database)
    (ns : list (string * Notification.t)) (user_id : string) :
  db_fault d = None →
  collection "notification" d = stored_notification <$> ns →
  GET_notifications user_id (Some d)
  = OK (stored_notification <$>
          take 100 (filter (λ n, for_user user_id n.2) ns)).
Proof.
  intros Hup Hns. unfold GET_notifications, list_notifications.
  rewrite get_documents_up by done.
  rewrite Hns, (filter_stored _ _ (λ n, for_user user_id n.2)), fmap_take;
    [done|].
  intros n. unfold query_matches, conds_hold, forallb.
  rewrite andb_true_r, cond_holds_unfold, notification_user_id.
  apply equals_one.
Qed.

Lemma list_notifications_by_user_witness :
  db_fault alerts_db = None
  ∧ collection "notification" alerts_db = stored_notification <$> alerts
  ∧ GET_notifications (E:=no_extensions) "" (Some alerts_db)
    = OK (stored_notification <$>
            take 100 (filter (λ n, for_user "" n.2) alerts))
  ∧ filter (λ n : string * Notification.t, for_user "" n.2) alerts
    = [("1", Notification.Build "" "system" "maintenance" None false)].
Proof.
  split; [reflexivity|]. split; [reflexivity|]. split; [|reflexivity].
  exact (list_notifications_by_user (E:=no_extensions) alerts_db alerts ""
           eq_refl eq_refl).
Defined.

(** X11.  GET /posts with a non-empty [author_id] and no tag returns the
    first 100 posts of that author, on a store in working order; an empty
    [author_id] is treated as absent, with or without a tag. *)
Theorem list_posts_by_author {E : RegexEngine} d ps ms (y : string) :
  holds d ps ms → y ≠ "" →
  GET_posts None (Some y) (Some d)
  = OK (stored_post <$> take 100 (filter (λ ip, by_author y ip.2) ps))
  ∧ ∀ tag db, GET_posts tag (Some "") db = GET_posts tag None db.
Proof.
  intros Hd Hy. split; [|done]. unfold GET_posts, list_posts.
  rewrite (nonempty_true _ Hy). simpl dict_set.
  rewrite (find_posts _ _ _ _ _ (by_author y) Hd); [done..|].
  intros ip. unfold query_matches, conds_hold, forallb.
  by rewrite andb_true_r, written_by.
Qed.

Lemma list_posts_by_author_witness :
  holds two_posts_db two_posts [] ∧ "u2" ≠ ""
  ∧ GET_posts (E:=no_extensions) None (Some "u2") (Some two_posts_db)
    = OK (stored_post <$> take 100 (filter (λ ip, by_author "u2" ip.2) two_posts))
  ∧ ∀ tag db,
      GET_posts (E:=no_extensions) tag (Some "") db
      = GET_posts (E:=no_extensions) tag None db.
Proof.
  split; [exact two_posts_held|]. split; [discriminate|].
  apply (list_posts_by_author (E:=no_extensions) two_posts_db two_posts []
           "u2"); [exact two_posts_held|discriminate].
Defined.

(** X12.  A conversation is the same from both ends: for non-empty [a] and
    [b], GET /messages with [user_id=a] and [with_user=b] answers exactly
    as with [user_id=b] and [with_user=a], whatever the store holds. *)
Theorem get_messages_symmetric {E : RegexEngine} (a b : string) (db : store) :
  a ≠ "" → b ≠ "" →
  GET_messages a (Some b) db = GET_messages b (Some a) db.
Proof.
  intros Ha Hb. unfold GET_messages, get_messages.
  rewrite (nonempty_true _ Ha), (nonempty_true _ Hb).
  unfold get_documents. destruct db as [d|]; [|done].
  destruct (db_fault d); [done|]. simpl. do 2 f_equal.
  apply List.filter_ext. intros doc. unfold conds_hold. simpl.
  rewrite !orb_false_r. apply orb_comm.
Qed.

Lemma get_messages_symmetric_witness :
  "ann" ≠ "" ∧ "bob" ≠ ""
  ∧ GET_messages (E:=no_extensions) "ann" (Some "bob") (Some chat_db)
    = GET_messages (E:=no_extensions) "bob" (Some "ann") (Some chat_db).
Proof.
  split; [discriminate|]. split; [discriminate|].
  apply (get_messages_symmetric (E:=no_extensions) "ann" "bob" (Some chat_db));
    discriminate.
Defined.

Lemma ci_contains_empty t : ci_contains "" t.
Proof. by exists [], (lower <$> chars t). Qed.

(** X13.  The empty search query: POST /search with [q=""] on a store in
    working order returns the first 50 posts that have a text at all, or
    that carry the empty string as a tag.  A post without text is not
    found by it. *)
Theorem search_empty_query {E : RegexEngine} d ps ms :
  holds d ps ms →
  POST_search (JObj [("q", JStr "")]) (Some d)
  = OK (stored_post <$>
          take 50 (filter (λ ip, has_text_or_empty_tag ip.2) ps)).
Proof.
  intros Hd. unfold POST_search, search.
  change (SearchQuery.validate (JObj [("q", JStr "")]))
    with (Valid (SearchQuery.Build "")).
  cbn [SearchQuery.q].
  assert (plain "") as Hq by constructor.
  rewrite (find_posts _ _ _ _ _ has_text_or_empty_tag Hd
             (search_query_compiles _ Hq)); [done|].
  intros ip. rewrite (search_query_matches _ _ Hq).
  unfold search_match, has_text_or_empty_tag. split.
  - intros [(t & Ht & _)|?]; [left; by rewrite Ht|by right].
  - intros [[t Ht]|?]; [left; eauto using ci_contains_empty|by right].
Qed.

Lemma search_empty_query_witness :
  holds two_posts_db two_posts []
  ∧ POST_search (E:=no_extensions) (JObj [("q", JStr "")]) (Some two_posts_db)
    = OK (stored_post <$>
            take 50 (filter (λ ip, has_text_or_empty_tag ip.2) two_posts)).
Proof.
  split; [exact two_posts_held|].
  exact (search_empty_query (E:=no_extensions) two_posts_db two_posts []
           two_posts_held).
Defined.

(* ===================================================================== *)
(** ** More on the diagnostics                                            *)
(* ===================================================================== *)

(** X14.  GET /test reports whether a store is configured, not whether it
    answers: for a configured store the body says [Connected], a set
    [database_url] and the name of the store, also when the store fails
    every operation; without a store it says [Not Connected] and [Not
    Set].  The body always has the same six keys, in the same order. *)
Theorem test_reports_configuration (db : store) :
  ∃ body,
    GET_test db = OK body
    ∧ body.*1 = ["backend"; "database"; "database_url"; "database_name";
                 "connection_status"; "collections"]
    ∧ dict_get "connection_status" body
      = Some (JStr (match db with
                    | Some _ => "Connected"
                    | None => "Not Connected"
                    end))
    ∧ dict_get "database_url" body
      = Some (JStr (match db with
                    | Some _ => "✅ Set"
                    | None => "❌ Not Set"
                    end))
    ∧ dict_get "database_name" body
      = Some (JStr (match db with
                    | Some d => db_name d
                    | None => "❌ Not Set"
                    end)).
Proof.
  destruct db as [d|]; [|by eexists].
  unfold GET_test, test_database, list_collection_names.
  destruct (db_fault d); by eexists.
Qed.

Lemma str_take_length n s :
  String.length (str_take n s) = min n (String.length s).
Proof.
  revert s. induction n as [|n IH]; intros [|c s]; simpl; [done..|].
  by rewrite IH.
Qed.

Lemma str_take_prefix n s : ∃ rest, s = str_take n s +:+ rest.
Proof.
  revert s. induction n as [|n IH]; intros s.
  - exists s. by destruct s.
  - destruct s as [|c s]; [by exists ""|].
    destruct (IH s) as [rest Hrest]. exists rest. simpl.
    unfold String.app in *. simpl. by rewrite <- Hrest.
Qed.

(** X15.  When the store is configured and fails, GET /test shows the
    error cut to its first 80 characters: the [database] field is the
    warning prefix followed by a prefix of the error message that is as
    long as the message or 80 characters, whichever is less; the list of
    collections stays empty. *)
Theorem test_truncates_error (d : Database) (e : string) :
  db_fault d = Some e →
  ∃ body shown rest,
    GET_test (Some d) = OK body
    ∧ dict_get "database" body
      = Some (JStr ("⚠️ Connected but Error: " +:+ shown))
    ∧ e = shown +:+ rest
    ∧ String.length shown = min 80 (String.length e)
    ∧ dict_get "collections" body = Some (JList []).
Proof.
  intros He. destruct (str_take_prefix 80 e) as [rest Hrest].
  unfold GET_test, test_database, list_collection_names. rewrite He.
  eexists _, (str_take 80 e), rest.
  split; [reflexivity|]. split; [reflexivity|]. split; [exact Hrest|].
  split; [apply str_take_length|reflexivity].
Qed.

Lemma test_truncates_error_witness :
  db_fault (failing long_error) = Some long_error
  ∧ String.length long_error = 100
  ∧ ∃ body shown rest,
      GET_test (Some (failing long_error)) = OK body
      ∧ dict_get "database" body
        = Some (JStr ("⚠️ Connected but Error: " +:+ shown))
      ∧ long_error = shown +:+ rest
      ∧ String.length shown = min 80 (String.length long_error)
      ∧ dict_get "collections" body = Some (JList []).
Proof.
  split; [reflexivity|]. split; [reflexivity|].
  exact (test_truncates_error (failing long_error) long_error eq_refl).
Defined.

(* ===================================================================== *)
(** ** Defaults of the DRM policy                                         *)
(* ===================================================================== *)

Lemma t_int_valid {I : IntParser} v n : t_int v = Valid n → int_value v = Some n.
Proof. unfold t_int. destruct (int_value v); [by intros [= ->]|done]. Qed.

Lemma t_bool_valid v b : t_bool v = Valid b → bool_value v = Some b.
Proof. unfold t_bool. destruct (bool_value v); [by intros [= ->]|done]. Qed.

(** X16.  In a DRM policy an absent field and a [null] are not the same.
    When [expire_seconds] is absent the policy expires after 3600 seconds;
    an explicit [null] gives a policy without expiry; any other value has
    to convert to an integer, as for every [int] field, and that integer is
    the expiry.  [watermark] is true and [allow_download] is false when
    absent; a value given for them has to convert to a boolean, and that
    boolean is taken. *)
Theorem drm_policy_defaults {I : IntParser} (fields : dict) (p : DRMPolicy.t) :
  DRMPolicy.validate (JObj fields) = Valid p →
  match dict_get "expire_seconds" fields with
  | None => DRMPolicy.expire_seconds p = Some 3600%Z
  | Some JNull => DRMPolicy.expire_seconds p = None
  | Some v => ∃ n, int_value v = Some n ∧ DRMPolicy.expire_seconds p = Some n
  end
  ∧ match dict_get "watermark" fields with
    | None => DRMPolicy.watermark p = true
    | Some v => bool_value v = Some (DRMPolicy.watermark p)
    end
  ∧ match dict_get "allow_download" fields with
    | None => DRMPolicy.allow_download p = false
    | Some v => bool_value v = Some (DRMPolicy.allow_download p)
    end.
Proof.
  intros H. unfold DRMPolicy.validate in H. simpl as_object in H.
  next_field H d Hd. injection Hd as <-.
  next_field H watermark Hw. next_field H expire He. next_field H download Ha.
  injection H as <-. simpl. unfold defaulted in *. split; [|split].
  - destruct (dict_get "expire_seconds" fields) as [v|]; [|by injection He as <-].
    apply at_field_valid in He.
    assert (v ≠ JNull → ∃ n, int_value v = Some n ∧ expire = Some n) as Hv.
    { intros Hnull. unfold t_optional in He.
      destruct (t_int v) as [n|] eqn:Hn; [|by destruct v].
      exists n. split; [by apply t_int_valid|]. by destruct v; simplify_eq/=. }
    destruct v; try (by apply Hv). by injection He as <-.
  - destruct (dict_get "watermark" fields) as [v|]; [|by injection Hw as <-].
    by apply at_field_valid, t_bool_valid in Hw.
  - destruct (dict_get "allow_download" fields) as [v|]; [|by injection Ha as <-].
    by apply at_field_valid, t_bool_valid in Ha.
Qed.

Lemma drm_policy_defaults_witness :
  DRMPolicy.validate (I:=decimal_only)
    (JObj [("expire_seconds", JNull); ("watermark", JStr "No")])
  = Valid (DRMPolicy.Build false None false)
  ∧ DRMPolicy.validate (I:=decimal_only)
      (JObj [("allow_download", JInt 1)])
    = Valid (DRMPolicy.Build true (Some 3600%Z) true)
  ∧ DRMPolicy.expire_seconds (DRMPolicy.Build false None false) = None
  ∧ bool_value (JStr "No") = Some false
  ∧ DRMPolicy.expire_seconds (DRMPolicy.Build true (Some 3600%Z) true)
    = Some 3600%Z
  ∧ bool_value (JInt 1) = Some true.
Proof.
  pose proof (drm_policy_defaults (I:=decimal_only)
                [("expire_seconds", JNull); ("watermark", JStr "No")]
                (DRMPolicy.Build false None false) eq_refl) as (H1 & H2 & _).
  pose proof (drm_policy_defaults (I:=decimal_only)
                [("allow_download", JInt 1)]
                (DRMPolicy.Build true (Some 3600%Z) true) eq_refl)
    as (H3 & _ & H4).
  split; [reflexivity|]. split; [reflexivity|].
  split; [exact H1|]. split; [exact H2|]. split; [exact H3|exact H4].
Defined.

Example bool_words :
  bool_value (JStr "YES") = Some true ∧ bool_value (JStr "off") = Some false
  ∧ bool_value (JStr "maybe") = None ∧ bool_value (JInt 2) = None.
Proof. repeat split. Qed.

(* ===================================================================== *)
(** ** Required fields                                                    *)
(* ===================================================================== *)

Lemma required_str_passes (d : dict) k :
  (∃ s, required d k t_str = Valid s) ↔ is_str (dict_get k d).
Proof.
  unfold required, is_str. destruct (dict_get k d) as [v|]; [destruct v|];
    simpl; split; intros [x H]; try discriminate H; eauto.
Qed.

Lemma optional_str_passes (d : dict) k :
  (∃ o, defaulted d k (t_optional t_str) None = Valid o)
  ↔ is_optional_str (dict_get k d).
Proof.
  unfold defaulted, is_optional_str, is_str.
  destruct (dict_get k d) as [v|]; [destruct v|]; simpl; split;
    first [ intros [x H]; try discriminate H; by eauto
          | intros [H|[H|[x H]]]; try discriminate H; by eauto ].
Qed.

(** X17.  The three models of plain strings accept exactly the objects
    that carry their required fields as strings: a comment needs
    [post_id], [author_id] and [text]; a like needs [post_id] and
    [user_id]; a message needs [sender_id], [recipient_id] and [body], and
    its [thread_id] may be absent, [null] or a string.  Other fields of the
    payload do not matter. *)
Theorem plain_models_accept (payload : value) :
  (passes Comment.validate payload = true ↔
     ∃ fields, payload = JObj fields
       ∧ is_str (dict_get "post_id" fields)
       ∧ is_str (dict_get "author_id" fields)
       ∧ is_str (dict_get "text" fields))
  ∧ (passes Like.validate payload = true ↔
       ∃ fields, payload = JObj fields
         ∧ is_str (dict_get "post_id" fields)
         ∧ is_str (dict_get "user_id" fields))
  ∧ (passes Message.validate payload = true ↔
       ∃ fields, payload = JObj fields
         ∧ is_str (dict_get "sender_id" fields)
         ∧ is_str (dict_get "recipient_id" fields)
         ∧ is_str (dict_get "body" fields)
         ∧ is_optional_str (dict_get "thread_id" fields)).
Proof.
  unfold passes. split; [|split].
  - unfold Comment.validate. split.
    + destruct payload as [| | | | |fields]; try done. simpl as_object.
      cbn [mbind validation_bind]. intros H. exists fields. split; [done|].
      rewrite <- !required_str_passes.
      destruct (required fields "post_id" t_str); [|done].
      destruct (required fields "author_id" t_str); [|done].
      destruct (required fields "text" t_str); [|done]. repeat split; eauto.
    + intros (fields & -> & [a Ha]%required_str_passes
              & [b Hb]%required_str_passes & [c Hc]%required_str_passes).
      simpl as_object. cbn [mbind validation_bind]. by rewrite Ha, Hb, Hc.
  - unfold Like.validate. split.
    + destruct payload as [| | | | |fields]; try done. simpl as_object.
      cbn [mbind validation_bind]. intros H. exists fields. split; [done|].
      rewrite <- !required_str_passes.
      destruct (required fields "post_id" t_str); [|done].
      destruct (required fields "user_id" t_str); [|done]. repeat split; eauto.
    + intros (fields & -> & [a Ha]%required_str_passes
              & [b Hb]%required_str_passes).
      simpl as_object. cbn [mbind validation_bind]. by rewrite Ha, Hb.
  - unfold Message.validate. split.
    + destruct payload as [| | | | |fields]; try done. simpl as_object.
      cbn [mbind validation_bind]. intros H. exists fields. split; [done|].
      rewrite <- !required_str_passes, <- optional_str_passes.
      destruct (required fields "sender_id" t_str); [|done].
      destruct (required fields "recipient_id" t_str); [|done].
      destruct (required fields "body" t_str); [|done].
      destruct (defaulted fields "thread_id" (t_optional t_str) None); [|done].
      repeat split; eauto.
    + intros (fields & -> & [a Ha]%required_str_passes
              & [b Hb]%required_str_passes & [c Hc]%required_str_passes
              & [o Ho]%optional_str_passes).
      simpl as_object. cbn [mbind validation_bind]. by rewrite Ha, Hb, Hc, Ho.
Qed.

Lemma plain_models_accept_witness :
  passes Message.validate (message_payload "ann" "bob" "hi") = true
  ∧ passes Message.validate
      (JObj [("sender_id", JStr "ann"); ("body", JStr "hi")]) = false
  ∧ ¬ is_str (dict_get "recipient_id"
                [("sender_id", JStr "ann"); ("body", JStr "hi")]).
Proof.
  split; [|split; [reflexivity|by intros [s [=]]]].
  apply (proj2 (proj2 (plain_models_accept (message_payload "ann" "bob" "hi")))).
  exists [("sender_id", JStr "ann"); ("recipient_id", JStr "bob");
          ("body", JStr "hi")].
  split; [reflexivity|].
  split; [by exists "ann"|]. split; [by exists "bob"|].
  split; [by exists "hi"|]. by left.
Defined.

(* ===================================================================== *)
(** ** Create a post, then list by tag                                    *)
(* ===================================================================== *)

Lemma inserted_post_holds d ps ms p :
  holds d ps ms →
  holds (inserted "post" (Post.dump p) d)
    (ps ++ [(object_id (db_generated d), p)]) ms.
Proof.
  intros [Hup Hps Hms]. split; [done|..].
  - by rewrite collection_inserted, Hps, fmap_app.
  - by rewrite collection_inserted_ne.
Qed.

(** X19.  The example of the specification, in general.  After a post has
    been created on a store in working order, GET /posts with a non-empty
    tag [x] returns the first 100 tagged posts of the collection with the
    new post at its end.  So a new post without the tag leaves the answer
    as it was before, and a new post with the tag is in the answer as long
    as fewer than 100 posts carried the tag before. *)
Theorem post_then_list_by_tag {U : UrlParser} {I : IntParser} {E : RegexEngine} d ps ms
    (payload : value) (p : Post.t) (x : string) :
  holds d ps ms → Post.validate payload = Valid p → x ≠ "" →
  ∃ i d',
    POST_posts payload (Some d) = (OK {| id := i |}, Some d')
    ∧ GET_posts (Some x) None (Some d')
      = OK (stored_post <$>
              take 100 (filter (λ ip, has_tag x ip.2) (ps ++ [(i, p)])))
    ∧ (¬ has_tag x p →
       GET_posts (Some x) None (Some d') = GET_posts (Some x) None (Some d))
    ∧ (has_tag x p →
       length (filter (λ ip, has_tag x ip.2) ps) < 100 →
       (i, p) ∈ take 100 (filter (λ ip, has_tag x ip.2) (ps ++ [(i, p)]))).
Proof.
  intros Hd Hp Hx.
  exists (object_id (db_generated d)), (inserted "post" (Post.dump p) d).
  assert (∀ d0 ps0,
            holds d0 ps0 ms →
            GET_posts (Some x) None (Some d0)
            = OK (stored_post <$> take 100 (filter (λ ip, has_tag x ip.2) ps0)))
    as Hlist.
  { intros d0 ps0 Hd0. unfold GET_posts, list_posts.
    rewrite (nonempty_true _ Hx). simpl dict_set.
    rewrite (find_posts _ _ _ _ _ (has_tag x) Hd0); [done..|].
    intros ip. unfold query_matches, conds_hold, forallb.
    by rewrite andb_true_r, tagged_with. }
  split; [exact (post_endpoint_up Post.validate Post.dump "post" _ _ _ Hp
                   (holds_up _ _ _ Hd))|].
  split; [exact (Hlist _ _ (inserted_post_holds _ _ _ p Hd))|]. split.
  - intros Hno. rewrite (Hlist _ _ (inserted_post_holds _ _ _ p Hd)), (Hlist _ _ Hd).
    rewrite filter_app, filter_cons_False, filter_nil, app_nil_r; done.
  - intros Hyes Hlen. rewrite filter_app, filter_cons_True, filter_nil by done.
    rewrite take_ge by (rewrite length_app; simpl; lia).
    rewrite elem_of_app, list_elem_of_singleton. auto.
Qed.

Lemma post_then_list_by_tag_witness :
  holds two_posts_db two_posts []
  ∧ Post.validate (U:=scheme_only) (I:=decimal_only) hello_payload = Valid hello_post
  ∧ "intro" ≠ ""
  ∧ ∃ i d',
      POST_posts (U:=scheme_only) (I:=decimal_only) hello_payload (Some two_posts_db)
      = (OK {| id := i |}, Some d')
      ∧ GET_posts (E:=no_extensions) (Some "intro") None (Some d')
        = OK (stored_post <$>
                take 100 (filter (λ ip, has_tag "intro" ip.2)
                            (two_posts ++ [(i, hello_post)])))
      ∧ (¬ has_tag "intro" hello_post →
         GET_posts (E:=no_extensions) (Some "intro") None (Some d')
         = GET_posts (E:=no_extensions) (Some "intro") None (Some two_posts_db))
      ∧ (has_tag "intro" hello_post →
         length (filter (λ ip, has_tag "intro" ip.2) two_posts) < 100 →
         (i, hello_post)
         ∈ take 100 (filter (λ ip, has_tag "intro" ip.2)
                       (two_posts ++ [(i, hello_post)]))).
Proof.
  split; [exact two_posts_held|]. split; [reflexivity|]. split; [discriminate|].
  apply (post_then_list_by_tag (U:=scheme_only) (I:=decimal_only) (E:=no_extensions)
           two_posts_db two_posts [] hello_payload hello_post "intro");
    [exact two_posts_held|reflexivity|discriminate].
Defined.
